(** * Verification of the fixed-length binary record store of car_rental.py

    The Python program keeps cars, customers and rental contracts in three
    flat files of fixed-size records.  This development embeds the record
    codec ([fixed_bytes], [bytes_to_str], [Car.pack], [Car.unpack], ...),
    the file layer ([BinaryRepository]) and the repositories built on it,
    and proves or refutes the properties stated for them.

    Modelling conventions:
    - a Python [bytes] value is a list of integers in [0, 256);
    - a Python [str] is the list of its code points (integers in
      [0, 0x110000)), and [str.encode]/[bytes.decode] with UTF-8 are
      written out as CPython performs them;
    - a Python [float] is its IEEE-754 binary64 bit pattern (an integer in
      [0, 2^64)); arithmetic on it goes through [SpecFloat];
    - exceptions are the [Err] case of [result];
    - the file system is a finite map from path to contents, threaded
      through a state monad together with a step counter that lets a fault
      schedule make any single I/O operation raise [OSError]. *)

From Stdlib Require Import ZArith Lia SpecFloat.
From stdpp Require Import base list gmap strings.

Open Scope Z_scope.

(** ** Exceptions and the error monad *)

Inductive exn :=
  | UnicodeEncodeError
  | UnicodeDecodeError
  | StructError
  | ValueError
  | OSError.

Inductive result (A : Type) : Type :=
  | Ok (a : A)
  | Err (e : exn).
Arguments Ok {A} a.
Arguments Err {A} e.

Global Instance result_ret : MRet result := fun A a => Ok a.
Global Instance result_bind : MBind result :=
  fun A B f m => match m with Ok a => f a | Err e => Err e end.
Global Instance result_fmap : FMap result :=
  fun A B f m => match m with Ok a => Ok (f a) | Err e => Err e end.

Definition byte := Z.
Definition bytes := list Z.
Definition py_str := list Z.

(** A Python string literal made of ASCII characters. *)
Definition str (s : string) : py_str :=
  map (fun a => Z.of_nat (Ascii.nat_of_ascii a)) (String.list_ascii_of_string s).

(** ** UTF-8, as CPython's [str.encode('utf-8')] and [bytes.decode] *)

(** Encoding one code point; lone surrogates cannot be encoded. *)
Definition utf8_encode_cp (c : Z) : result bytes :=
  if c <? 0x80 then Ok [c]
  else if c <? 0x800 then Ok [0xC0 + c / 64; 0x80 + c mod 64]
  else if c <? 0x10000 then
    if (0xD800 <=? c) && (c <=? 0xDFFF) then Err UnicodeEncodeError
    else Ok [0xE0 + c / 4096; 0x80 + (c / 64) mod 64; 0x80 + c mod 64]
  else Ok [0xF0 + c / 262144; 0x80 + (c / 4096) mod 64;
           0x80 + (c / 64) mod 64; 0x80 + c mod 64].

Fixpoint utf8_encode (s : py_str) : result bytes :=
  match s with
  | [] => Ok []
  | c :: s' => b ← utf8_encode_cp c; r ← utf8_encode s'; mret (b ++ r)
  end.

(** The [errors=] argument of [bytes.decode]. *)
Inductive errors_mode := Strict | Ignore.

Definition in_range (lo hi b : Z) : bool := (lo <=? b) && (b <=? hi).
Definition is_cont (b : Z) : bool := in_range 0x80 0xBF b.

(** Admissible second byte of a three- and four-byte sequence (this
    excludes overlong forms, surrogates and code points past 0x10FFFF). *)
Definition second_ok3 (b1 b2 : Z) : bool :=
  if b1 =? 0xE0 then in_range 0xA0 0xBF b2
  else if b1 =? 0xED then in_range 0x80 0x9F b2
  else is_cont b2.
Definition second_ok4 (b1 b2 : Z) : bool :=
  if b1 =? 0xF0 then in_range 0x90 0xBF b2
  else if b1 =? 0xF4 then in_range 0x80 0x8F b2
  else is_cont b2.

(** An invalid sequence: [Strict] raises, [Ignore] drops the maximal
    valid prefix and resumes at the first byte that broke it. *)
Definition on_error (m : errors_mode) (rest : result py_str) : result py_str :=
  match m with Strict => Err UnicodeDecodeError | Ignore => rest end.

Definition push (c : Z) (r : result py_str) : result py_str := cons c <$> r.

Fixpoint utf8_decode (m : errors_mode) (bs : bytes) : result py_str :=
  match bs with
  | [] => Ok []
  | b1 :: r1 =>
    if b1 <? 0x80 then push b1 (utf8_decode m r1)
    else if in_range 0xC2 0xDF b1 then
      match r1 with
      | b2 :: r2 =>
        if is_cont b2 then push ((b1 - 0xC0) * 64 + (b2 - 0x80)) (utf8_decode m r2)
        else on_error m (utf8_decode m r1)
      | [] => on_error m (utf8_decode m r1)
      end
    else if in_range 0xE0 0xEF b1 then
      match r1 with
      | b2 :: r2 =>
        if second_ok3 b1 b2 then
          match r2 with
          | b3 :: r3 =>
            if is_cont b3 then
              push ((b1 - 0xE0) * 4096 + (b2 - 0x80) * 64 + (b3 - 0x80))
                   (utf8_decode m r3)
            else on_error m (utf8_decode m r2)
          | [] => on_error m (utf8_decode m r2)
          end
        else on_error m (utf8_decode m r1)
      | [] => on_error m (utf8_decode m r1)
      end
    else if in_range 0xF0 0xF4 b1 then
      match r1 with
      | b2 :: r2 =>
        if second_ok4 b1 b2 then
          match r2 with
          | b3 :: r3 =>
            if is_cont b3 then
              match r3 with
              | b4 :: r4 =>
                if is_cont b4 then
                  push ((b1 - 0xF0) * 262144 + (b2 - 0x80) * 4096
                        + (b3 - 0x80) * 64 + (b4 - 0x80)) (utf8_decode m r4)
                else on_error m (utf8_decode m r3)
              | [] => on_error m (utf8_decode m r3)
              end
            else on_error m (utf8_decode m r2)
          | [] => on_error m (utf8_decode m r2)
          end
        else on_error m (utf8_decode m r1)
      | [] => on_error m (utf8_decode m r1)
      end
    else on_error m (utf8_decode m r1)
  end.

(** ** Fixed-length text fields (lines 12-18) *)

(** [bytes.rstrip(b' ')]. *)
Fixpoint lstrip_space (b : bytes) : bytes :=
  match b with
  | x :: r => if x =? 0x20 then lstrip_space r else b
  | [] => []
  end.
Definition rstrip_space (b : bytes) : bytes := reverse (lstrip_space (reverse b)).

(** [fixed_bytes(s, length)]: encode, cut to [length] bytes, pad with spaces. *)
Definition fixed_bytes (s : py_str) (length : nat) : result bytes :=
  b ← take length <$> utf8_encode s;
  mret (b ++ replicate (length - List.length b)%nat 0x20).

(** [bytes_to_str(b)]: strip trailing spaces, decode with [errors='ignore']. *)
Definition bytes_to_str (b : bytes) : result py_str :=
  utf8_decode Ignore (rstrip_space b).

Example utf8_thai_ko : utf8_encode [0xE01] = Ok [0xE0; 0xB8; 0x81].
Proof. reflexivity. Qed.
Example fixed_bytes_pad : fixed_bytes (str "C001") 6 = Ok [67; 48; 48; 49; 32; 32].
Proof. reflexivity. Qed.
Example bytes_to_str_split : bytes_to_str [0x41; 0x20; 0xE0; 0x20] = Ok [0x41; 0x20].
Proof. reflexivity. Qed.

(** ** The [struct] module, little-endian ([<]) formats *)

Fixpoint le_bytes (n : nat) (x : Z) : bytes :=
  match n with
  | O => []
  | S n' => x mod 256 :: le_bytes n' (x / 256)
  end.

Fixpoint le_value (bs : bytes) : Z :=
  match bs with
  | [] => 0
  | b :: r => b + 256 * le_value r
  end.

(** Format [Ns]: the argument is cut or NUL-padded to [N] bytes. *)
Definition pack_s (n : nat) (b : bytes) : bytes :=
  take n b ++ replicate (n - length b)%nat 0.

(** Format [I]: unsigned 32-bit; out of range raises [struct.error]. *)
Definition pack_uint32 (x : Z) : result bytes :=
  if (0 <=? x) && (x <? 2 ^ 32) then Ok (le_bytes 4 x) else Err StructError.

(** ** Python floats: binary64 bit patterns *)

Definition py_float := Z.

(** Format [d]: the eight bytes of the bit pattern. *)
Definition pack_double (x : py_float) : bytes := le_bytes 8 x.

Definition sf_of_bits (x : py_float) : spec_float :=
  let f := x mod 2 ^ 52 in
  let ex := (x / 2 ^ 52) mod 2048 in
  let s := Z.testbit x 63 in
  if ex =? 0 then
    (if f =? 0 then S754_zero s else S754_finite s (Z.to_pos f) (-1074))
  else if ex =? 2047 then
    (if f =? 0 then S754_infinity s else S754_nan)
  else S754_finite s (Z.to_pos (f + 2 ^ 52)) (ex - 1075).

Definition sign_bit (s : bool) : Z := if s then 2 ^ 63 else 0.

(** NaN results are given the default quiet NaN (the payload is not
    modelled). *)
Definition bits_of_sf (f : spec_float) : py_float :=
  match f with
  | S754_zero s => sign_bit s
  | S754_infinity s => sign_bit s + 2047 * 2 ^ 52
  | S754_nan => 2047 * 2 ^ 52 + 2 ^ 51
  | S754_finite s m e =>
    sign_bit s + (if Zpos m <? 2 ^ 52 then Zpos m
                  else (e + 1075) * 2 ^ 52 + (Zpos m - 2 ^ 52))
  end.

(** [float(n)] for an int, rounded to nearest-even. *)
Definition float_of_int (n : Z) : py_float :=
  bits_of_sf (binary_normalize 53 1024 n 0 false).

(** [x * y] on floats ([int * float] first converts the int). *)
Definition float_mul (x y : py_float) : py_float :=
  bits_of_sf (SFmul 53 1024 (sf_of_bits x) (sf_of_bits y)).

(** [x < y] on floats. *)
Definition float_lt (x y : py_float) : bool := SFltb (sf_of_bits x) (sf_of_bits y).

(** ** Records (lines 20-103) *)

Fixpoint split_fields (ws : list nat) (b : bytes) : list bytes :=
  match ws with
  | [] => []
  | w :: ws' => take w b :: split_fields ws' (drop w b)
  end.

(** [<10s10s20s30sId10s3s] *)
Definition CAR_FIELDS : list nat := [10; 10; 20; 30; 4; 8; 10; 3]%nat.
Definition CAR_RECORD_SIZE : nat := 95.
(** [<10s50s13s15s50s] *)
Definition CUST_FIELDS : list nat := [10; 50; 13; 15; 50]%nat.
Definition CUST_RECORD_SIZE : nat := 138.
(** [<10s10s10s10s10sd10s] *)
Definition CONTRACT_FIELDS : list nat := [10; 10; 10; 10; 10; 8; 10]%nat.
Definition CONTRACT_RECORD_SIZE : nat := 68.

Record Car := mkCar {
  car_id : py_str; plate : py_str; brand : py_str; model : py_str;
  year : Z; price_per_day : py_float; status : py_str; rented : py_str }.

Definition Car_pack (c : Car) : result bytes :=
  f0 ← fixed_bytes (car_id c) 10; f1 ← fixed_bytes (plate c) 10;
  f2 ← fixed_bytes (brand c) 20; f3 ← fixed_bytes (model c) 30;
  f6 ← fixed_bytes (status c) 10; f7 ← fixed_bytes (rented c) 3;
  y ← pack_uint32 (year c);
  mret (pack_s 10 f0 ++ pack_s 10 f1 ++ pack_s 20 f2 ++ pack_s 30 f3 ++ y
        ++ pack_double (price_per_day c) ++ pack_s 10 f6 ++ pack_s 3 f7).

Definition Car_unpack (b : bytes) : result Car :=
  if decide (length b = CAR_RECORD_SIZE) then
    match split_fields CAR_FIELDS b with
    | [f0; f1; f2; f3; f4; f5; f6; f7] =>
      s0 ← bytes_to_str f0; s1 ← bytes_to_str f1; s2 ← bytes_to_str f2;
      s3 ← bytes_to_str f3; s6 ← bytes_to_str f6; s7 ← bytes_to_str f7;
      mret (mkCar s0 s1 s2 s3 (le_value f4) (le_value f5) s6 s7)
    | _ => Err StructError
    end
  else Err StructError.

Record Customer := mkCustomer {
  cust_id : py_str; name : py_str; id_card : py_str; phone : py_str; email : py_str }.

Definition Customer_pack (c : Customer) : result bytes :=
  f0 ← fixed_bytes (cust_id c) 10; f1 ← fixed_bytes (name c) 50;
  f2 ← fixed_bytes (id_card c) 13; f3 ← fixed_bytes (phone c) 15;
  f4 ← fixed_bytes (email c) 50;
  mret (pack_s 10 f0 ++ pack_s 50 f1 ++ pack_s 13 f2 ++ pack_s 15 f3 ++ pack_s 50 f4).

Definition Customer_unpack (b : bytes) : result Customer :=
  if decide (length b = CUST_RECORD_SIZE) then
    match split_fields CUST_FIELDS b with
    | [f0; f1; f2; f3; f4] =>
      s0 ← bytes_to_str f0; s1 ← bytes_to_str f1; s2 ← bytes_to_str f2;
      s3 ← bytes_to_str f3; s4 ← bytes_to_str f4;
      mret (mkCustomer s0 s1 s2 s3 s4)
    | _ => Err StructError
    end
  else Err StructError.

(** The fields [car_id], [cust_id] and [status] of the Python class are
    prefixed here, record projections being global names. *)
Record Contract := mkContract {
  contract_id : py_str; contract_car_id : py_str; contract_cust_id : py_str;
  start_date : py_str; end_date : py_str; total_cost : py_float;
  contract_status : py_str }.

Definition Contract_pack (c : Contract) : result bytes :=
  f0 ← fixed_bytes (contract_id c) 10; f1 ← fixed_bytes (contract_car_id c) 10;
  f2 ← fixed_bytes (contract_cust_id c) 10; f3 ← fixed_bytes (start_date c) 10;
  f4 ← fixed_bytes (end_date c) 10; f6 ← fixed_bytes (contract_status c) 10;
  mret (pack_s 10 f0 ++ pack_s 10 f1 ++ pack_s 10 f2 ++ pack_s 10 f3
        ++ pack_s 10 f4 ++ pack_double (total_cost c) ++ pack_s 10 f6).

Definition Contract_unpack (b : bytes) : result Contract :=
  if decide (length b = CONTRACT_RECORD_SIZE) then
    match split_fields CONTRACT_FIELDS b with
    | [f0; f1; f2; f3; f4; f5; f6] =>
      s0 ← bytes_to_str f0; s1 ← bytes_to_str f1; s2 ← bytes_to_str f2;
      s3 ← bytes_to_str f3; s4 ← bytes_to_str f4; s6 ← bytes_to_str f6;
      mret (mkContract s0 s1 s2 s3 s4 (le_value f5) s6)
    | _ => Err StructError
    end
  else Err StructError.

Definition sample_car : Car :=
  mkCar (str "C001") (str "AB1234") (str "Toyota") (str "Camry") 2023
        (float_of_int 2500) (str "Active") (str "No").

Example sample_car_roundtrip :
  (b ← Car_pack sample_car; Car_unpack b) = Ok sample_car.
Proof. vm_compute. reflexivity. Qed.
Example float_2500_bits : float_of_int 2500 = 0x40A3880000000000.
Proof. vm_compute. reflexivity. Qed.

(** ** The file system and the I/O monad *)

Record world := mkWorld { files : gmap string bytes; clock : nat }.

(** A computation returns a result (or the exception it raised) and the
    world it leaves; the world changes even when an exception escapes. *)
Definition M (A : Type) : Type := world -> result A * world.

Global Instance M_ret : MRet M := fun A a w => (Ok a, w).
Global Instance M_bind : MBind M :=
  fun A B f m w =>
    match m w with
    | (Ok a, w') => f a w'
    | (Err e, w') => (Err e, w')
    end.

(** Raising from pure code (decoding, packing) inside [M]. *)
Definition lift {A} (r : result A) : M A := fun w => (r, w).

Section io.
(** [faults n] makes the [n]-th primitive I/O operation raise [OSError]
    without any effect. *)
Variable faults : nat -> bool.

Definition io_op {A} (f : gmap string bytes -> result (A * gmap string bytes)) : M A :=
  fun w =>
    let n := clock w in
    if faults n then (Err OSError, mkWorld (files w) (S n))
    else match f (files w) with
         | Ok (a, fs) => (Ok a, mkWorld fs (S n))
         | Err e => (Err e, mkWorld (files w) (S n))
         end.

(** [open(p, 'rb').read()]; a missing file raises. *)
Definition read_file (p : string) : M bytes :=
  io_op (fun fs => match fs !! p with
                   | Some c => Ok (c, fs)
                   | None => Err OSError
                   end).

(** [open(p, 'ab')]: creates an empty file if absent. *)
Definition open_ab (p : string) : M unit :=
  io_op (fun fs => Ok (tt, <[p := default [] (fs !! p)]> fs)).

(** [open(p, 'wb')]: creates or truncates. *)
Definition open_wb (p : string) : M unit :=
  io_op (fun fs => Ok (tt, <[p := []]> fs)).

(** [f.write(b)] on a handle of [p] opened for writing or appending. *)
Definition write_file (p : string) (b : bytes) : M unit :=
  io_op (fun fs => Ok (tt, <[p := default [] (fs !! p) ++ b]> fs)).

(** [os.replace(src, dst)]: a single atomic step. *)
Definition os_replace (src dst : string) : M unit :=
  io_op (fun fs => match fs !! src with
                   | Some c => Ok (tt, <[dst := c]> (delete src fs))
                   | None => Err OSError
                   end).

Fixpoint write_all (p : string) (records : list bytes) : M unit :=
  match records with
  | [] => mret tt
  | r :: rs => write_file p r;; write_all p rs
  end.

(** *** BinaryRepository (lines 108-128) *)

(** The loop of [iterate_raw]: read [n] bytes, stop on a short read.
    [fuel] bounds the iterations; one more than the file length is
    always enough. *)
Fixpoint iter_raw (fuel n : nat) (bs : bytes) : list bytes :=
  match fuel with
  | O => []
  | S fuel' =>
    let b := take n bs in
    if (length b =? 0)%nat || (length b <? n)%nat then []
    else b :: iter_raw fuel' n (drop n bs)
  end.

Definition records_of (n : nat) (bs : bytes) : list bytes :=
  iter_raw (S (length bs)) n bs.

Definition BinaryRepository_init (filename : string) : M unit :=
  fun w => if decide (is_Some (files w !! filename)) then (Ok tt, w)
           else open_ab filename w.

Definition read_all_raw (filename : string) (recsize : nat) : M (list bytes) :=
  bs ← read_file filename; mret (records_of recsize bs).

Definition overwrite_all_raw (filename : string) (records : list bytes) : M unit :=
  let tmp := String.append filename ".tmp" in
  open_wb tmp;; write_all tmp records;; os_replace tmp filename.

(** *** The entity repositories (lines 130-187) *)

Class Entity (E : Type) := {
  recsize : nat;
  e_pack : E -> result bytes;
  e_unpack : bytes -> result E;
  e_ident : E -> py_str
}.

Fixpoint find_first {E} `{Entity E} (id : py_str) (cs : list E) : option E :=
  match cs with
  | [] => None
  | c :: cs' => if bool_decide (e_ident c = id) then Some c else find_first id cs'
  end.

Fixpoint update_scan {E} `{Entity E} (id : py_str) (new : E) (raw : list bytes)
    : result (list bytes * bool) :=
  match raw with
  | [] => Ok ([], false)
  | b :: r =>
    c ← e_unpack b;
    let hit := bool_decide (e_ident c = id) in
    hd ← (if hit then e_pack new else Ok b);
    '(out, changed) ← update_scan id new r;
    mret (hd :: out, hit || changed)
  end.

Section repository.
Context {E : Type} `{Entity E}.
Variable filename : string.

Definition repo_all : M (list E) :=
  raw ← read_all_raw filename (@recsize E _); lift (mapM e_unpack raw).

Definition repo_find (id : py_str) : M (option E) :=
  cs ← repo_all; mret (find_first id cs).

Definition repo_add (e : E) : M bool :=
  found ← repo_find (e_ident e);
  match found with
  | Some _ => mret false
  | None =>
    open_ab filename;; b ← lift (e_pack e); write_file filename b;; mret true
  end.

Definition repo_update (id : py_str) (new : E) : M bool :=
  raw ← read_all_raw filename (@recsize E _);
  r ← lift (update_scan id new raw);
  let '(out, changed) := r in
  if (changed : bool) then overwrite_all_raw filename out;; mret true
  else mret false.
End repository.
End io.

Global Instance Car_entity : Entity Car :=
  {| recsize := CAR_RECORD_SIZE; e_pack := Car_pack; e_unpack := Car_unpack;
     e_ident := car_id |}.
Global Instance Customer_entity : Entity Customer :=
  {| recsize := CUST_RECORD_SIZE; e_pack := Customer_pack;
     e_unpack := Customer_unpack; e_ident := cust_id |}.
Global Instance Contract_entity : Entity Contract :=
  {| recsize := CONTRACT_RECORD_SIZE; e_pack := Contract_pack;
     e_unpack := Contract_unpack; e_ident := contract_id |}.

Definition CARS_FILE : string := "cars.dat".
Definition CUSTOMERS_FILE : string := "customers.dat".
Definition CONTRACTS_FILE : string := "contracts.dat".

(** [CarRepository.mark_deleted] (lines 146-153): the matching car is
    decoded, its status set to ['Deleted'] and the car packed again. *)
Fixpoint mark_scan (id : py_str) (raw : list bytes) : result (list bytes * bool) :=
  match raw with
  | [] => Ok ([], false)
  | b :: r =>
    c ← Car_unpack b;
    let hit := bool_decide (car_id c = id) in
    hd ← (if hit then Car_pack {| car_id := car_id c; plate := plate c;
                                  brand := brand c; model := model c;
                                  year := year c; price_per_day := price_per_day c;
                                  status := str "Deleted"; rented := rented c |}
          else Ok b);
    '(out, changed) ← mark_scan id r;
    mret (hd :: out, hit || changed)
  end.

Definition mark_deleted (faults : nat -> bool) (filename : string) (id : py_str) : M bool :=
  raw ← read_all_raw faults filename CAR_RECORD_SIZE;
  r ← lift (mark_scan id raw);
  let '(out, changed) := r in
  if (changed : bool) then overwrite_all_raw faults filename out;; mret true
  else mret false.

(** [delete_customer] of the menu (lines 346-362), after the id was read. *)
Fixpoint delete_scan (cid : py_str) (raw : list bytes) : result (list bytes * bool) :=
  match raw with
  | [] => Ok ([], false)
  | b :: r =>
    c ← Customer_unpack b;
    '(out, found) ← delete_scan cid r;
    if bool_decide (cust_id c = cid) then mret (out, true)
    else mret (b :: out, found)
  end.

Definition delete_customer (faults : nat -> bool) (filename : string) (cid : py_str) : M bool :=
  raw ← read_all_raw faults filename CUST_RECORD_SIZE;
  r ← lift (delete_scan cid raw);
  let '(out, found) := r in
  if (found : bool) then overwrite_all_raw faults filename out;; mret true
  else mret false.

Definition no_faults : nat -> bool := fun _ => false.
Definition empty_world : world := mkWorld ∅ 0.

Example store_scenario :
  let run := (BinaryRepository_init no_faults CARS_FILE;;
              ok ← repo_add no_faults CARS_FILE sample_car;
              cs ← repo_all no_faults CARS_FILE;
              mret (ok, length cs)) in
  fst (run empty_world) = Ok (true, 1%nat).
Proof. vm_compute. reflexivity. Qed.

(** ** Dates and contract cost (lines 200-201, 400-407) *)

(** [datetime.strptime(s, '%Y-%m-%d')] matches [s] against the regular
    expression CPython's [_strptime] builds for the format,
    [(?P<Y>\d\d\d\d)-(?P<m>1[0-2]|0[1-9]|[1-9])-(?P<d>3[0-1]|[1-2]\d|0[1-9]|[1-9]| [1-9])],
    takes the first match in backtracking order, refuses unconverted data
    and builds the date.  A parser returns its matches in backtracking
    order.  In a [str] pattern [\d] matches every Unicode decimal digit,
    and [int] converts each to its value; the classes [[0-9]], [[1-9]],
    ... match ASCII digits only. *)
Definition parser (A : Type) : Type := py_str -> list (A * py_str).

Definition p_char_in (lo hi : Z) : parser Z :=
  fun s => match s with
           | c :: r => if in_range lo hi c then [(c, r)] else []
           | [] => []
           end.

Definition p_alt {A} (p q : parser A) : parser A := fun s => p s ++ q s.

Definition p_seq {A B} (p : parser A) (f : A -> parser B) : parser B :=
  fun s => (p s) ≫= (fun '(a, r) => f a r).

Definition p_ret {A} (a : A) : parser A := fun s => [(a, s)].

(** A one-character class, as the digit value of the character. *)
Definition p_dig (lo hi : Z) : parser Z :=
  p_seq (p_char_in lo hi) (fun c => p_ret (c - 48)).

(** The Unicode decimal digits (category Nd, Unicode 14.0 as in CPython
    3.11) come in 66 runs of ten consecutive code points, the digits 0 to
    9; these are the first code points of the runs.  [\d] matches exactly
    these digits ([_PyUnicode_IsDecimalDigit]) and [int] gives each its
    value ([_PyUnicode_ToDecimalDigit]). *)
Definition DECIMAL_ZEROS : list Z :=
  [0x30; 0x660; 0x6f0; 0x7c0; 0x966; 0x9e6; 0xa66; 0xae6;
   0xb66; 0xbe6; 0xc66; 0xce6; 0xd66; 0xde6; 0xe50; 0xed0;
   0xf20; 0x1040; 0x1090; 0x17e0; 0x1810; 0x1946; 0x19d0; 0x1a80;
   0x1a90; 0x1b50; 0x1bb0; 0x1c40; 0x1c50; 0xa620; 0xa8d0; 0xa900;
   0xa9d0; 0xa9f0; 0xaa50; 0xabf0; 0xff10; 0x104a0; 0x10d30; 0x11066;
   0x110f0; 0x11136; 0x111d0; 0x112f0; 0x11450; 0x114d0; 0x11650; 0x116c0;
   0x11730; 0x118e0; 0x11950; 0x11c50; 0x11d50; 0x11da0; 0x16a60; 0x16ac0;
   0x16b50; 0x1d7ce; 0x1d7d8; 0x1d7e2; 0x1d7ec; 0x1d7f6; 0x1e140; 0x1e2f0;
   0x1e950; 0x1fbf0].

Definition decimal_value (c : Z) : option Z :=
  match List.find (fun z => in_range z (z + 9) c) DECIMAL_ZEROS with
  | Some z => Some (c - z)
  | None => None
  end.

(** [\d], as the digit value of the character. *)
Definition p_decimal : parser Z :=
  fun s => match s with
           | c :: r => match decimal_value c with Some v => [(v, r)] | None => [] end
           | [] => []
           end.

(** Two digit classes in a row, as a two-digit number. *)
Definition p_two (p q : parser Z) : parser Z :=
  p_seq p (fun a => p_seq q (fun b => p_ret (10 * a + b))).

Definition p_Y : parser Z :=
  p_seq (p_two p_decimal p_decimal) (fun hi =>
  p_seq (p_two p_decimal p_decimal) (fun lo => p_ret (100 * hi + lo))).

Definition p_m : parser Z :=
  p_alt (p_two (p_dig 49 49) (p_dig 48 50))
  (p_alt (p_two (p_dig 48 48) (p_dig 49 57))
         (p_dig 49 57)).

(** The last alternative [' [1-9]'] is converted by [int], which skips
    the leading space. *)
Definition p_d : parser Z :=
  p_alt (p_two (p_dig 51 51) (p_dig 48 49))
  (p_alt (p_two (p_dig 49 50) p_decimal)
  (p_alt (p_two (p_dig 48 48) (p_dig 49 57))
  (p_alt (p_dig 49 57)
         (p_seq (p_char_in 32 32) (fun _ => p_dig 49 57))))).

Definition p_date : parser (Z * Z * Z) :=
  p_seq p_Y (fun y => p_seq (p_char_in 45 45) (fun _ =>
  p_seq p_m (fun m => p_seq (p_char_in 45 45) (fun _ =>
  p_seq p_d (fun d => p_ret (y, m, d)))))).

Definition is_leap (y : Z) : bool :=
  (y mod 4 =? 0) && (negb (y mod 100 =? 0) || (y mod 400 =? 0)).

Definition DAYS_IN_MONTH : list Z := [-1; 31; 28; 31; 30; 31; 30; 31; 31; 30; 31; 30; 31].
Definition DAYS_BEFORE_MONTH : list Z := [-1; 0; 31; 59; 90; 120; 151; 181; 212; 243; 273; 304; 334].

Definition days_in_month (y m : Z) : Z :=
  if (m =? 2) && is_leap y then 29 else nth (Z.to_nat m) DAYS_IN_MONTH 0.

Definition days_before_year (y : Z) : Z :=
  let y' := y - 1 in y' * 365 + y' / 4 - y' / 100 + y' / 400.

Definition days_before_month (y m : Z) : Z :=
  nth (Z.to_nat m) DAYS_BEFORE_MONTH 0 + (if (2 <? m) && is_leap y then 1 else 0).

(** [date.toordinal()] ([_ymd2ord]). *)
Definition toordinal (d : Z * Z * Z) : Z :=
  let '(y, m, dd) := d in days_before_year y + days_before_month y m + dd.

(** [date(y, m, d)] checks [MINYEAR <= y] and the day of the month. *)
Definition valid_date (d : Z * Z * Z) : bool :=
  let '(y, m, dd) := d in
  (1 <=? y) && (y <=? 9999) && in_range 1 12 m && in_range 1 (days_in_month y m) dd.

Definition parse_date (s : py_str) : result (Z * Z * Z) :=
  match p_date s with
  | (d, rest) :: _ =>
    match rest with
    | [] => if valid_date d then Ok d else Err ValueError
    | _ :: _ => Err ValueError
    end
  | [] => Err ValueError
  end.

(** [max(0, (parse_date(b) - parse_date(a)).days + 1)]. *)
Definition date_diff_days (a b : py_str) : result Z :=
  db ← parse_date b; da ← parse_date a;
  mret (Z.max 0 (toordinal db - toordinal da + 1)).

(** [est_cost = dcount * car.price_per_day]. *)
Definition est_cost (dcount : Z) (price : py_float) : py_float :=
  float_mul (float_of_int dcount) price.

Example parse_date_ok : parse_date (str "2025-09-20") = Ok (2025, 9, 20).
Proof. vm_compute. reflexivity. Qed.
Example parse_date_bad : parse_date (str "2025-02-29") = Err ValueError.
Proof. vm_compute. reflexivity. Qed.
Example parse_date_short : parse_date (str "2024-2-9") = Ok (2024, 2, 9).
Proof. vm_compute. reflexivity. Qed.

(** Thai digits ([U+0E50] to [U+0E59]) written for ASCII ones. *)
Definition thai_digits (s : py_str) : py_str :=
  map (fun c => if in_range 48 57 c then c - 48 + 0xE50 else c) s.

(** [\d] takes any decimal digit, a class such as [[0-9]] only ASCII
    ones: '๒๐๒๕-09-20' and '2025-09-2๕' are dates, '2025-09-๒5' is not. *)
Example parse_date_thai_year :
  parse_date (thai_digits (str "2025") ++ str "-09-20") = Ok (2025, 9, 20).
Proof. vm_compute. reflexivity. Qed.
Example parse_date_thai_day :
  parse_date (str "2025-09-2" ++ thai_digits (str "5")) = Ok (2025, 9, 25).
Proof. vm_compute. reflexivity. Qed.
Example parse_date_thai_tens :
  parse_date (str "2025-09-" ++ thai_digits (str "25")) = Err ValueError.
Proof. vm_compute. reflexivity. Qed.

(** ** The input helper of the menu (lines 192-198) *)

(** [str.isspace()] on one code point, as CPython's
    [_PyUnicode_IsWhitespace]. *)
Definition py_isspace (c : Z) : bool :=
  in_range 0x09 0x0D c || in_range 0x1C 0x20 c || (c =? 0x85) || (c =? 0xA0)
  || (c =? 0x1680) || in_range 0x2000 0x200A c || (c =? 0x2028) || (c =? 0x2029)
  || (c =? 0x202F) || (c =? 0x205F) || (c =? 0x3000).

Fixpoint lstrip_ws (s : py_str) : py_str :=
  match s with
  | c :: r => if py_isspace c then lstrip_ws r else s
  | [] => []
  end.

(** [s.strip()]. *)
Definition py_strip (s : py_str) : py_str := reverse (lstrip_ws (reverse (lstrip_ws s))).

(** How reading input ends: with a value and the lines not read yet, or
    with an exception. *)
Inductive read_outcome :=
  | Read (v : py_str) (rest : list py_str)
  | EOFError
  | Raised (e : exn).

(** [input_nonempty(prompt, max_len)] on the input lines [lines]
    ([max_len] is [None] for Python's [None]); [input()] raises
    [EOFError] once the lines run out.  A rejected line prints a message
    and the loop reads the next one. *)
Fixpoint input_nonempty (max_len : option nat) (lines : list py_str) : read_outcome :=
  match lines with
  | [] => EOFError
  | l :: rest =>
    let v := py_strip l in
    match v with
    | [] => input_nonempty max_len rest
    | _ :: _ =>
      match max_len with
      | Some n =>
        if (n =? 0)%nat then Read v rest
        else match utf8_encode v with
             | Ok e => if (n <? length e)%nat then input_nonempty max_len rest
                       else Read v rest
             | Err ex => Raised ex
             end
      | None => Read v rest
      end
    end
  end.

(** ** Car statistics of [cars_summary] and [make_report] (lines 655-659, 705-709) *)

Section car_stats.
(** [str.lower()]: the Unicode case mapping is not embedded; what is
    proved of these lists holds whatever function it is. *)
Variable lower : py_str -> py_str.

Definition active_cars (allcars : list Car) : list Car :=
  filter (fun c => lower (status c) = str "active") allcars.

Definition deleted_cars (allcars : list Car) : list Car :=
  filter (fun c => lower (status c) = str "deleted") allcars.

Definition rented_cars (active : list Car) : list Car :=
  filter (fun c => lower (rented c) = str "yes") active.

Definition available_cars (active : list Car) : list Car :=
  filter (fun c => lower (rented c) <> str "yes") active.
End car_stats.

(** The [brand_count] loop of [make_report] (lines 720-722). *)
Definition brand_count (active : list Car) : gmap py_str nat :=
  foldl (fun m c => <[brand c := (default 0 (m !! brand c) + 1)%nat]> m) ∅ active.

(** ** Contracts from the menu (lines 381-450) *)

(** [car.rented = r] on a car read from the store. *)
Definition with_rented (c : Car) (r : py_str) : Car :=
  {| car_id := car_id c; plate := plate c; brand := brand c; model := model c;
     year := year c; price_per_day := price_per_day c; status := status c;
     rented := r |}.

(** [c.total_cost = cost; c.end_date = e; c.status = 'closed']. *)
Definition closed_contract (c : Contract) (cost : py_float) (e : py_str) : Contract :=
  {| contract_id := contract_id c; contract_car_id := contract_car_id c;
     contract_cust_id := contract_cust_id c; start_date := start_date c;
     end_date := e; total_cost := cost; contract_status := str "closed" |}.

(** The message [add_contract] ends with. *)
Inductive add_contract_msg :=
  | ContractExists | CarUnavailable | CarRented | CustomerMissing | BadDate
  | Cancelled | Created | AddFailed.

(** The message [close_contract] ends with. *)
Inductive close_contract_msg :=
  | ContractMissing | AlreadyClosed | BadReturnDate | CarMissing | Closed
  | CloseFailed.

Section menu.
Variable faults : nat -> bool.
(** [str.lower()], as above. *)
Variable lower : py_str -> py_str.

(** [add_contract()], the answers to its prompts being given: the ids
    and dates as [input_nonempty] returned them, and the raw answer to
    the confirmation. *)
Definition add_contract (contract_id car_id cust_id start end_ confirm : py_str)
    : M add_contract_msg :=
  found ← repo_find faults CONTRACTS_FILE contract_id;
  match found with
  | Some _ => mret ContractExists
  | None =>
    car ← repo_find faults CARS_FILE car_id;
    match car with
    | None => mret CarUnavailable
    | Some car =>
      if bool_decide (lower (status car) = str "deleted") then mret CarUnavailable
      else if bool_decide (lower (rented car) = str "yes") then mret CarRented
      else
        cust ← repo_find faults CUSTOMERS_FILE cust_id;
        match cust with
        | None => mret CustomerMissing
        | Some _ =>
          match date_diff_days start end_ with
          | Err _ => mret BadDate
          | Ok dcount =>
            let est := est_cost dcount (price_per_day car) in
            if bool_decide (lower (py_strip confirm) = str "y") then
              ok ← repo_add faults CONTRACTS_FILE
                     (mkContract contract_id car_id cust_id start end_ est (str "active"));
              if (ok : bool) then
                repo_update faults CARS_FILE car_id (with_rented car (str "Yes"));;
                mret Created
              else mret AddFailed
            else mret Cancelled
          end
        end
    end
  end.

(** [close_contract()], the contract id and the raw answer to the
    return-date prompt being given. *)
Definition close_contract (cid actual_in : py_str) : M close_contract_msg :=
  found ← repo_find faults CONTRACTS_FILE cid;
  match found with
  | None => mret ContractMissing
  | Some c =>
    if bool_decide (lower (contract_status c) = str "closed") then mret AlreadyClosed
    else
      let actual_end := match py_strip actual_in with [] => end_date c | v => v end in
      match date_diff_days (start_date c) actual_end with
      | Err _ => mret BadReturnDate
      | Ok days =>
        car ← repo_find faults CARS_FILE (contract_car_id c);
        match car with
        | None => mret CarMissing
        | Some car =>
          let actual_cost := float_mul (float_of_int days) (price_per_day car) in
          ok ← repo_update faults CONTRACTS_FILE cid (closed_contract c actual_cost actual_end);
          if (ok : bool) then
            repo_update faults CARS_FILE (car_id car) (with_rented car (str "No"));;
            mret Closed
          else mret CloseFailed
        end
      end
  end.
End menu.

(** * Properties and test data

    Predicates the theorems are stated with, and the concrete values
    the examples and witnesses run on. *)

(** An element of a Python [bytes] value. *)
Definition byte_ok (b : Z) : Prop := 0 <= b < 256.

(** A Python [str] holds code points below 0x110000. *)
Definition valid_cp (c : Z) : Prop := 0 <= c < 0x110000.

(** Unicode scalar values: the code points UTF-8 can encode. *)
Definition scalar (c : Z) : Prop := valid_cp c /\ ~ (0xD800 <= c <= 0xDFFF).

(** A text value fits a field of [W] bytes: it is encodable and its
    encoding has at most [W] bytes. *)
Definition text_fits (s : py_str) (W : nat) : Prop :=
  Forall valid_cp s /\ exists e, utf8_encode s = Ok e /\ (length e <= W)%nat.

Definition Car_fits (c : Car) : Prop :=
  text_fits (car_id c) 10 /\ text_fits (plate c) 10 /\ text_fits (brand c) 20 /\
  text_fits (model c) 30 /\ 0 <= year c < 2 ^ 32 /\ 0 <= price_per_day c < 2 ^ 64 /\
  text_fits (status c) 10 /\ text_fits (rented c) 3.

Definition Customer_fits (c : Customer) : Prop :=
  text_fits (cust_id c) 10 /\ text_fits (name c) 50 /\ text_fits (id_card c) 13 /\
  text_fits (phone c) 15 /\ text_fits (email c) 50.

Definition Contract_fits (c : Contract) : Prop :=
  text_fits (contract_id c) 10 /\ text_fits (contract_car_id c) 10 /\
  text_fits (contract_cust_id c) 10 /\ text_fits (start_date c) 10 /\
  text_fits (end_date c) 10 /\ 0 <= total_cost c < 2 ^ 64 /\
  text_fits (contract_status c) 10.

(** What decoding an encoded record gives back: every text field with
    its trailing spaces stripped. *)
Definition Car_rstrip (c : Car) : Car :=
  mkCar (rstrip_space (car_id c)) (rstrip_space (plate c)) (rstrip_space (brand c))
        (rstrip_space (model c)) (year c) (price_per_day c)
        (rstrip_space (status c)) (rstrip_space (rented c)).

Definition Customer_rstrip (c : Customer) : Customer :=
  mkCustomer (rstrip_space (cust_id c)) (rstrip_space (name c))
             (rstrip_space (id_card c)) (rstrip_space (phone c)) (rstrip_space (email c)).

Definition Contract_rstrip (c : Contract) : Contract :=
  mkContract (rstrip_space (contract_id c)) (rstrip_space (contract_car_id c))
             (rstrip_space (contract_cust_id c)) (rstrip_space (start_date c))
             (rstrip_space (end_date c)) (total_cost c) (rstrip_space (contract_status c)).

(** A text value with no trailing space. *)
Definition no_trailing_space (s : py_str) : Prop := last s <> Some 0x20.

Definition Car_no_trailing (c : Car) : Prop :=
  Forall no_trailing_space [car_id c; plate c; brand c; model c; status c; rented c].

Definition Customer_no_trailing (c : Customer) : Prop :=
  Forall no_trailing_space [cust_id c; name c; id_card c; phone c; email c].

Definition Contract_no_trailing (c : Contract) : Prop :=
  Forall no_trailing_space [contract_id c; contract_car_id c; contract_cust_id c;
                            start_date c; end_date c; contract_status c].

Definition sample_customer : Customer :=
  mkCustomer (str "CU01") (str "Somchai") (str "1234567890123") (str "0812345678")
             (str "a@b.com").

Definition sample_contract : Contract :=
  mkContract (str "K001") (str "C001") (str "CU01") (str "2025-09-20")
             (str "2025-09-25") (float_of_int 15000) (str "Active").

(** The sample car with a trailing space in its id. *)
Definition car_trailing_id : Car :=
  mkCar (str "C001 ") (str "AB1234") (str "Toyota") (str "Camry") 2023
        (float_of_int 2500) (str "Active") (str "No").

(** What the repositories need from an entity: records have a positive
    size, every block of that size decodes, and every encoding has that
    size. *)
Class EntityLaws (E : Type) `{Entity E} := {
  recsize_pos : (0 < @recsize E _)%nat;
  unpack_total : forall b, length b = @recsize E _ -> exists e, e_unpack b = Ok e;
  pack_length : forall (e : E) b, e_pack e = Ok b -> length b = @recsize E _
}.

(** Block [b] does not hold an entity of identity [id]. *)
Definition no_match {E} `{Entity E} (id : py_str) (b : bytes) : Prop :=
  forall c : E, e_unpack b = Ok c -> e_ident c <> id.

(** The bytes of [sample_car] and a car store holding them. *)
Definition sample_car_bytes : bytes :=
  match Car_pack sample_car with Ok b => b | Err _ => [] end.

Definition car_store (bs : bytes) : world := mkWorld {[CARS_FILE := bs]} 0.

Definition customer_store (bs : bytes) : world := mkWorld {[CUSTOMERS_FILE := bs]} 0.

Definition sample_customer_bytes : bytes :=
  match Customer_pack sample_customer with Ok b => b | Err _ => [] end.

(** The car [mark_deleted] packs again in place of the decoded [c]. *)
Definition deleted_car (c : Car) : Car :=
  {| car_id := car_id c; plate := plate c; brand := brand c; model := model c;
     year := year c; price_per_day := price_per_day c; status := str "Deleted";
     rented := rented c |}.

(** A car whose plate, cut to its 10 bytes by [fixed_bytes], ends with a
    space followed by the first byte of a Thai character. *)
Definition car_split_plate : Car :=
  mkCar (str "C009") (str "AAAAAAAA " ++ [0xE01]) (str "Toyota") (str "Camry") 2023
        (float_of_int 2500) (str "Active") (str "No").

Definition split_plate_bytes : bytes :=
  match Car_pack car_split_plate with Ok b => b | Err _ => [] end.

(** Two more cars and customers, and stores of three records whose
    middle record is the sample one. *)
Definition car_C000 : Car :=
  mkCar (str "C000") (str "XY9999") (str "Honda") (str "Civic") 2021
        (float_of_int 1800) (str "Active") (str "Yes").

Definition car_C002 : Car :=
  mkCar (str "C002") (str "ZZ0001") (str "Mazda") (str "CX-5") 2022
        (float_of_int 2200) (str "Active") (str "No").

Definition cust_CU00 : Customer :=
  mkCustomer (str "CU00") (str "Somsri") (str "9876543210987") (str "0898765432")
             (str "s@c.com").

Definition cust_CU02 : Customer :=
  mkCustomer (str "CU02") (str "Somchai") (str "1111111111111") (str "0811111111")
             (str "x@y.org").

Definition car_bytes (c : Car) : bytes :=
  match Car_pack c with Ok b => b | Err _ => [] end.

Definition cust_bytes (c : Customer) : bytes :=
  match Customer_pack c with Ok b => b | Err _ => [] end.

Definition three_cars_bytes : bytes :=
  car_bytes car_C000 ++ sample_car_bytes ++ car_bytes car_C002.

Definition three_customers_bytes : bytes :=
  cust_bytes cust_CU00 ++ sample_customer_bytes ++ cust_bytes cust_CU02.

(** [car_split_plate] between two other cars. *)
Definition split_plate_store_bytes : bytes :=
  car_bytes car_C000 ++ split_plate_bytes ++ car_bytes car_C002.

(** One pass of make_report's brand-count loop. *)
Definition brand_step (m : gmap py_str nat) (c : Car) : gmap py_str nat :=
  <[brand c := (default 0 (m !! brand c) + 1)%nat]> m.

(** The sum of the counts of a count map. *)
Definition map_total (m : gmap py_str nat) : nat := map_fold (fun _ v acc => (v + acc)%nat) 0%nat m.

(** [str.lower] restricted to ASCII letters, for the test data below. *)
Definition ascii_lower (s : py_str) : py_str :=
  map (fun c => if in_range 65 90 c then c + 32 else c) s.

(** Test data for the menu handlers: the sample car marked rented, a
    closed contract on it, and worlds holding all three files. *)
Definition rented_sample_car_bytes : bytes :=
  match Car_pack (with_rented sample_car (str "Yes")) with Ok b => b | Err _ => [] end.

Definition closed_sample_contract_bytes : bytes :=
  match Contract_pack {| contract_id := str "K001"; contract_car_id := str "C001";
                         contract_cust_id := str "CU01"; start_date := str "2025-09-20";
                         end_date := str "2025-09-25"; total_cost := float_of_int 15000;
                         contract_status := str "Closed" |} with Ok b => b | Err _ => [] end.

Definition rental_world : world :=
  mkWorld {[CARS_FILE := rented_sample_car_bytes; CUSTOMERS_FILE := sample_customer_bytes;
            CONTRACTS_FILE := closed_sample_contract_bytes]} 0.

(** Block [b] decodes to an entity of identity [id]. *)
Definition holds_id {E} `{Entity E} (id : py_str) (b : bytes) : bool :=
  match e_unpack b with Ok c => bool_decide (e_ident c = id) | Err _ => false end.

Definition open_world : world :=
  mkWorld {[CARS_FILE := sample_car_bytes; CUSTOMERS_FILE := sample_customer_bytes;
            CONTRACTS_FILE := closed_sample_contract_bytes]} 0.

(** An active contract K001 on the rented sample car, after a closed one. *)
Definition contract_K000 : Contract :=
  mkContract (str "K000") (str "C000") (str "CU00") (str "2025-08-01")
             (str "2025-08-03") (float_of_int 5400) (str "closed").

Definition contract_bytes (c : Contract) : bytes :=
  match Contract_pack c with Ok b => b | Err _ => [] end.

Definition active_rental_world : world :=
  mkWorld {[CARS_FILE := rented_sample_car_bytes; CUSTOMERS_FILE := sample_customer_bytes;
            CONTRACTS_FILE := contract_bytes contract_K000 ++ contract_bytes sample_contract]} 0.

(** * Proofs *)

(** ** Bytes, code points and the comparisons of the codec *)

Ltac zlia := Z.div_mod_to_equations; lia.

(** Settle the integer comparisons of the goal: a comparison the context
    decides is rewritten, any other one is split on. *)
Ltac zconds :=
  repeat (try unfold in_range, is_cont, second_ok3, second_ok4, on_error in *;
   cbv beta iota delta [andb orb negb];
   match goal with
   | |- context [?a <? ?b] =>
     first [rewrite (proj2 (Z.ltb_lt a b)) by zlia
           | rewrite (proj2 (Z.ltb_ge a b)) by zlia
           | destruct (Z.ltb_spec a b)]
   | |- context [?a <=? ?b] =>
     first [rewrite (proj2 (Z.leb_le a b)) by zlia
           | rewrite (proj2 (Z.leb_gt a b)) by zlia
           | destruct (Z.leb_spec a b)]
   | |- context [?a =? ?b] =>
     first [rewrite (proj2 (Z.eqb_eq a b)) by zlia
           | rewrite (proj2 (Z.eqb_neq a b)) by zlia
           | destruct (Z.eqb_spec a b)]
   end).

Lemma utf8_decode_cons m b1 r1 :
  utf8_decode m (b1 :: r1) =
    if b1 <? 0x80 then push b1 (utf8_decode m r1)
    else if in_range 0xC2 0xDF b1 then
      match r1 with
      | b2 :: r2 =>
        if is_cont b2 then push ((b1 - 0xC0) * 64 + (b2 - 0x80)) (utf8_decode m r2)
        else on_error m (utf8_decode m r1)
      | [] => on_error m (utf8_decode m r1)
      end
    else if in_range 0xE0 0xEF b1 then
      match r1 with
      | b2 :: r2 =>
        if second_ok3 b1 b2 then
          match r2 with
          | b3 :: r3 =>
            if is_cont b3 then
              push ((b1 - 0xE0) * 4096 + (b2 - 0x80) * 64 + (b3 - 0x80))
                   (utf8_decode m r3)
            else on_error m (utf8_decode m r2)
          | [] => on_error m (utf8_decode m r2)
          end
        else on_error m (utf8_decode m r1)
      | [] => on_error m (utf8_decode m r1)
      end
    else if in_range 0xF0 0xF4 b1 then
      match r1 with
      | b2 :: r2 =>
        if second_ok4 b1 b2 then
          match r2 with
          | b3 :: r3 =>
            if is_cont b3 then
              match r3 with
              | b4 :: r4 =>
                if is_cont b4 then
                  push ((b1 - 0xF0) * 262144 + (b2 - 0x80) * 4096
                        + (b3 - 0x80) * 64 + (b4 - 0x80)) (utf8_decode m r4)
                else on_error m (utf8_decode m r3)
              | [] => on_error m (utf8_decode m r3)
              end
            else on_error m (utf8_decode m r2)
          | [] => on_error m (utf8_decode m r2)
          end
        else on_error m (utf8_decode m r1)
      | [] => on_error m (utf8_decode m r1)
      end
    else on_error m (utf8_decode m r1).
Proof. reflexivity. Qed.

(** Decoding the encoding of one code point consumes exactly its bytes. *)
Lemma utf8_decode_encode_cp m c e rest :
  valid_cp c -> utf8_encode_cp c = Ok e ->
  utf8_decode m (e ++ rest) = push c (utf8_decode m rest).
Proof.
  unfold valid_cp, utf8_encode_cp. intros Hc He.
  destruct (Z.ltb_spec c 0x80).
  { injection He as <-. simpl. zconds. reflexivity. }
  destruct (Z.ltb_spec c 0x800).
  { injection He as <-. cbn [app]. rewrite utf8_decode_cons. zconds.
    f_equal. zlia. }
  destruct (Z.ltb_spec c 0x10000).
  - destruct ((0xD800 <=? c) && (c <=? 0xDFFF)) eqn:Hs; [discriminate|].
    apply andb_false_iff in Hs.
    rewrite Z.leb_gt, Z.leb_gt in Hs.
    injection He as <-. cbn [app]. rewrite utf8_decode_cons.
    zconds; try (exfalso; zlia); f_equal; zlia.
  - injection He as <-. cbn [app]. rewrite utf8_decode_cons.
    zconds; try (exfalso; zlia); f_equal; zlia.
Qed.

Ltac split_lists :=
  repeat match goal with
  | |- context [match ?l with [] => _ | _ :: _ => _ end] => destruct l
  end.

Ltac decode_cases := repeat progress (zconds; split_lists).

Lemma length_ind (P : bytes -> Prop) :
  (forall bs, (forall l : bytes, (length l < length bs)%nat -> P l) -> P bs) ->
  forall bs, P bs.
Proof.
  intros H.
  assert (Hn : forall n (bs : bytes), (length bs <= n)%nat -> P bs).
  { induction n; intros bs Hl; apply H; intros l Hl'; [lia | apply IHn; lia]. }
  intros bs. apply (Hn (length bs)). lia.
Qed.

(** [errors='ignore'] never raises. *)
Lemma utf8_decode_ignore_total (bs : bytes) : exists s, utf8_decode Ignore bs = Ok s.
Proof.
  induction bs as [bs IH] using length_ind.
  destruct bs as [|b1 r1]; [eauto|].
  rewrite utf8_decode_cons. decode_cases;
  match goal with
  | |- exists s, push _ (utf8_decode Ignore ?l) = Ok s =>
    destruct (IH l ltac:(simpl; lia)) as [s' Hs']; rewrite Hs'; eexists; reflexivity
  | |- exists s, utf8_decode Ignore ?l = Ok s => apply IH; simpl; lia
  end.
Qed.

Ltac byte_facts :=
  repeat match goal with
  | H : Forall _ (_ :: _) |- _ => apply Forall_cons in H as [? ?]
  end; unfold byte_ok in *.

Ltac forall_bytes :=
  repeat (apply Forall_cons; split); first [assumption | unfold byte_ok; lia | constructor].

(** What [errors='ignore'] produces is a sequence of Unicode scalars,
    whose UTF-8 encoding is no longer than the decoded bytes. *)
Lemma utf8_decode_ignore_scalar (bs : bytes) :
  Forall byte_ok bs -> forall s, utf8_decode Ignore bs = Ok s ->
  Forall scalar s /\ exists e, utf8_encode s = Ok e /\ (length e <= length bs)%nat.
Proof.
  induction bs as [bs IH] using length_ind.
  intros Hb. destruct bs as [|b1 r1].
  { intros s [= <-]. split; [constructor|]. exists []. auto. }
  rewrite utf8_decode_cons.
  decode_cases; byte_facts;
  match goal with
  | |- forall s, push ?X (utf8_decode Ignore ?l) = Ok s -> _ =>
    let s := fresh "s" in let H := fresh "H" in let Hd := fresh "Hd" in
    intros s H; destruct (utf8_decode Ignore l) as [s'|] eqn:Hd; [|discriminate];
    injection H as <-;
    destruct (IH l ltac:(simpl; lia) ltac:(forall_bytes) s' Hd) as [Hsc [e' [He' Hl']]];
    split; [constructor; [unfold scalar, valid_cp; zlia | exact Hsc] |];
    cbn [utf8_encode]; rewrite He'; unfold utf8_encode_cp; zconds;
    try (exfalso; zlia);
    eexists; (split; [reflexivity | cbn [length app]; lia])
  | |- forall s, utf8_decode Ignore ?l = Ok s -> _ =>
    let s := fresh "s" in let H := fresh "H" in
    intros s H;
    destruct (IH l ltac:(simpl; lia) ltac:(forall_bytes) s H) as [Hsc [e' [He' Hl']]];
    split; [exact Hsc|]; exists e'; split; [exact He'|]; simpl in *; lia
  end.
Qed.

Lemma utf8_encode_app (s1 s2 : py_str) :
  utf8_encode (s1 ++ s2) = (e1 ← utf8_encode s1; e2 ← utf8_encode s2; mret (e1 ++ e2)).
Proof.
  induction s1 as [|c s1 IH]; simpl.
  - destruct (utf8_encode s2); reflexivity.
  - rewrite IH. destruct (utf8_encode_cp c); [|reflexivity]. simpl.
    destruct (utf8_encode s1); [|reflexivity]. simpl.
    destruct (utf8_encode s2); [|reflexivity]. simpl. rewrite app_assoc. reflexivity.
Qed.

Lemma utf8_decode_encode m (s : py_str) e :
  Forall valid_cp s -> utf8_encode s = Ok e -> utf8_decode m e = Ok s.
Proof.
  revert e. induction s as [|c s IH]; intros e Hv He.
  - injection He as <-. reflexivity.
  - apply Forall_cons in Hv as [Hc Hv]. simpl in He.
    destruct (utf8_encode_cp c) as [ec|] eqn:Hec; [|discriminate]. simpl in He.
    destruct (utf8_encode s) as [es|] eqn:Hes; [|discriminate]. injection He as <-.
    rewrite (utf8_decode_encode_cp m c ec es Hc Hec), (IH es Hv eq_refl). reflexivity.
Qed.

Lemma utf8_encode_cp_last c e :
  valid_cp c -> c <> 0x20 -> utf8_encode_cp c = Ok e -> last e <> Some 0x20.
Proof.
  unfold valid_cp, utf8_encode_cp. intros Hc Hsp He.
  destruct (Z.ltb_spec c 0x80); [injection He as <-; simpl; congruence|].
  destruct (Z.ltb_spec c 0x800); [injection He as <-; simpl; intros [=]; zlia|].
  destruct (Z.ltb_spec c 0x10000).
  - destruct (_ && _); [discriminate|]. injection He as <-. simpl. intros [=]. zlia.
  - injection He as <-. simpl. intros [=]. zlia.
Qed.

(** *** [bytes.rstrip(b' ')] *)

Lemma lstrip_space_replicate k (l : bytes) :
  lstrip_space (replicate k 0x20 ++ l) = lstrip_space l.
Proof. induction k; simpl; auto. Qed.

Lemma rstrip_space_app_spaces (l : bytes) k :
  last l <> Some 0x20 -> rstrip_space (l ++ replicate k 0x20) = l.
Proof.
  intros Hl. unfold rstrip_space.
  rewrite reverse_app, reverse_replicate, lstrip_space_replicate.
  destruct (decide (l = [])) as [->|Hne]; [reflexivity|].
  destruct (last l) as [x|] eqn:Hx; [|apply last_None in Hx; contradiction].
  apply last_Some in Hx as [l' ->].
  rewrite reverse_snoc. simpl.
  destruct (Z.eqb_spec x 0x20) as [->|]; [congruence|].
  rewrite <- reverse_snoc, reverse_involutive. reflexivity.
Qed.

Lemma rstrip_space_spec (l : bytes) :
  exists k, l = rstrip_space l ++ replicate k 0x20 /\ last (rstrip_space l) <> Some 0x20.
Proof.
  induction l as [|x l IH] using rev_ind.
  - exists 0%nat. split; [reflexivity|]. simpl. discriminate.
  - destruct (Z.eqb_spec x 0x20) as [->|Hx].
    + destruct IH as [k [Hk Hlast]].
      assert (rstrip_space (l ++ [0x20]) = rstrip_space l) as Hr.
      { rewrite Hk at 1. rewrite <- app_assoc, <- replicate_S_end.
        apply rstrip_space_app_spaces, Hlast. }
      exists (S k). rewrite Hr. split; [|exact Hlast].
      rewrite replicate_S_end, app_assoc, <- Hk. reflexivity.
    + assert (Hl : last (l ++ [x]) <> Some 0x20) by (rewrite last_snoc; congruence).
      pose proof (rstrip_space_app_spaces (l ++ [x]) 0 Hl) as Hr.
      rewrite app_nil_r in Hr. exists 0%nat. rewrite Hr, app_nil_r. auto.
Qed.

Lemma rstrip_space_spaces (l : bytes) k :
  rstrip_space (l ++ replicate k 0x20) = rstrip_space l.
Proof.
  destruct (rstrip_space_spec l) as [j [Hj Hlast]].
  rewrite Hj at 1. rewrite <- app_assoc, <- replicate_add.
  apply rstrip_space_app_spaces, Hlast.
Qed.

Lemma utf8_encode_spaces k : utf8_encode (replicate k 0x20) = Ok (replicate k 0x20).
Proof. induction k as [|k IHk]; [reflexivity|]. simpl. rewrite IHk. reflexivity. Qed.

(** Stripping trailing spaces commutes with UTF-8 encoding: the last
    byte of a multi-byte sequence is never a space. *)
Lemma utf8_encode_rstrip (s : py_str) e :
  Forall valid_cp s -> utf8_encode s = Ok e ->
  utf8_encode (rstrip_space s) = Ok (rstrip_space e).
Proof.
  intros Hv He.
  destruct (rstrip_space_spec s) as [k [Hk Hlast]].
  set (r := rstrip_space s) in *.
  pose proof (utf8_encode_spaces k) as Hsp.
  rewrite Hk in He, Hv. rewrite utf8_encode_app, Hsp in He.
  apply Forall_app in Hv as [Hv _].
  destruct (utf8_encode r) as [er|] eqn:Her; [|discriminate].
  injection He as <-. rewrite rstrip_space_app_spaces; [reflexivity|].
  destruct r as [|c r'] using rev_ind; [injection Her as <-; discriminate|].
  rewrite last_snoc in Hlast. apply Forall_app in Hv as [_ Hc].
  apply Forall_cons in Hc as [Hc _].
  rewrite utf8_encode_app in Her. simpl in Her.
  destruct (utf8_encode r') as [er'|]; [|discriminate]. simpl in Her.
  destruct (utf8_encode_cp c) as [ec|] eqn:Hec; [|discriminate]. simpl in Her.
  injection Her as <-. rewrite app_nil_r.
  destruct (decide (ec = [])) as [->|Hne].
  { unfold utf8_encode_cp in Hec. repeat destruct (_ <? _); try destruct (_ && _); discriminate. }
  destruct (last ec) as [y|] eqn:Hy; [|apply last_None in Hy; contradiction].
  apply last_Some in Hy as [ec' ->]. rewrite app_assoc, last_snoc.
  pose proof (utf8_encode_cp_last c _ Hc ltac:(congruence) Hec) as Hl.
  rewrite last_snoc in Hl. exact Hl.
Qed.

(** *** One text field through [fixed_bytes], [struct] and [bytes_to_str] *)

Lemma field_roundtrip (s : py_str) (W : nat) :
  text_fits s W ->
  exists fb, fixed_bytes s W = Ok fb /\ length fb = W /\ pack_s W fb = fb /\
             bytes_to_str fb = Ok (rstrip_space s).
Proof.
  intros [Hv [e [He Hl]]].
  assert (Hlen : length (e ++ replicate (W - length e) 0x20) = W)
    by (rewrite length_app, length_replicate; lia).
  exists (e ++ replicate (W - length e) 0x20).
  unfold fixed_bytes. rewrite He. cbn. rewrite take_ge by lia.
  split; [reflexivity|]. split; [exact Hlen|]. split.
  - unfold pack_s. rewrite take_ge by lia.
    rewrite Hlen, Nat.sub_diag. apply app_nil_r.
  - unfold bytes_to_str. rewrite rstrip_space_spaces.
    apply utf8_decode_encode; [|apply utf8_encode_rstrip; assumption].
    destruct (rstrip_space_spec s) as [k [Hk _]].
    rewrite Hk in Hv. apply Forall_app in Hv as [Hv _]. exact Hv.
Qed.

Lemma le_bytes_length n x : length (le_bytes n x) = n.
Proof. revert x. induction n; intros x; simpl; [reflexivity|]. rewrite IHn. reflexivity. Qed.

Lemma le_value_bytes n x :
  0 <= x < 2 ^ (8 * Z.of_nat n) -> le_value (le_bytes n x) = x.
Proof.
  revert x. induction n as [|n IH]; intros x Hx; simpl.
  - simpl in Hx. lia.
  - rewrite IH; [zlia|].
    rewrite Nat2Z.inj_succ, Z.mul_succ_r, Z.pow_add_r in Hx by lia.
    split; [apply Z.div_pos; lia|]. apply Z.div_lt_upper_bound; lia.
Qed.

Lemma split_fields_app w ws (f rest : bytes) :
  length f = w -> split_fields (w :: ws) (f ++ rest) = f :: split_fields ws rest.
Proof. intros <-. simpl. rewrite take_app_length, drop_app_length. reflexivity. Qed.

Lemma split_fields_last w (f : bytes) : length f = w -> split_fields [w] f = [f].
Proof. intros <-. simpl. rewrite take_ge by lia. reflexivity. Qed.

(** *** Whole records *)

Ltac field_rt H :=
  let fb := fresh "fb" in let Hf := fresh "Hf" in let Hl := fresh "Hl" in
  let Hp := fresh "Hp" in let Hd := fresh "Hd" in
  destruct (field_roundtrip _ _ H) as [fb [Hf [Hl [Hp Hd]]]];
  rewrite Hf; cbn [mbind result_bind]; rewrite Hp.

Lemma Car_unpack_pack (c : Car) :
  Car_fits c ->
  exists bs, Car_pack c = Ok bs /\ length bs = CAR_RECORD_SIZE /\
             Car_unpack bs = Ok (Car_rstrip c).
Proof.
  intros (H0 & H1 & H2 & H3 & Hy & Hpr & H6 & H7).
  unfold Car_pack.
  field_rt H0. field_rt H1. field_rt H2. field_rt H3. field_rt H6. field_rt H7.
  unfold pack_uint32. rewrite (proj2 (andb_true_iff _ _)) by (split; apply Z.leb_le || apply Z.ltb_lt; lia).
  cbn [mbind result_bind mret result_ret].
  eexists. split; [reflexivity|].
  assert (Hlen : length (fb ++ fb0 ++ fb1 ++ fb2 ++ le_bytes 4 (year c) ++
            pack_double (price_per_day c) ++ fb3 ++ fb4) = CAR_RECORD_SIZE).
  { unfold pack_double, CAR_RECORD_SIZE. rewrite !length_app, !le_bytes_length. lia. }
  split; [exact Hlen|].
  unfold Car_unpack. rewrite decide_True by exact Hlen. unfold CAR_FIELDS.
  rewrite !split_fields_app by (unfold pack_double; rewrite ?le_bytes_length; first [reflexivity | assumption]).
  rewrite split_fields_last by assumption.
  rewrite Hd, Hd0, Hd1, Hd2, Hd3, Hd4. cbn [mbind result_bind mret result_ret].
  unfold pack_double. rewrite !le_value_bytes by (simpl; lia). reflexivity.
Qed.

Lemma Customer_unpack_pack (c : Customer) :
  Customer_fits c ->
  exists bs, Customer_pack c = Ok bs /\ length bs = CUST_RECORD_SIZE /\
             Customer_unpack bs = Ok (Customer_rstrip c).
Proof.
  intros (H0 & H1 & H2 & H3 & H4).
  unfold Customer_pack.
  field_rt H0. field_rt H1. field_rt H2. field_rt H3. field_rt H4.
  cbn [mbind result_bind mret result_ret].
  eexists. split; [reflexivity|].
  assert (Hlen : length (fb ++ fb0 ++ fb1 ++ fb2 ++ fb3) = CUST_RECORD_SIZE).
  { unfold CUST_RECORD_SIZE. rewrite !length_app. lia. }
  split; [exact Hlen|].
  unfold Customer_unpack. rewrite decide_True by exact Hlen. unfold CUST_FIELDS.
  rewrite !split_fields_app by assumption.
  rewrite split_fields_last by assumption.
  rewrite Hd, Hd0, Hd1, Hd2, Hd3. reflexivity.
Qed.

Lemma Contract_unpack_pack (c : Contract) :
  Contract_fits c ->
  exists bs, Contract_pack c = Ok bs /\ length bs = CONTRACT_RECORD_SIZE /\
             Contract_unpack bs = Ok (Contract_rstrip c).
Proof.
  intros (H0 & H1 & H2 & H3 & H4 & Hc & H6).
  unfold Contract_pack.
  field_rt H0. field_rt H1. field_rt H2. field_rt H3. field_rt H4. field_rt H6.
  cbn [mbind result_bind mret result_ret].
  eexists. split; [reflexivity|].
  assert (Hlen : length (fb ++ fb0 ++ fb1 ++ fb2 ++ fb3 ++
            pack_double (total_cost c) ++ fb4) = CONTRACT_RECORD_SIZE).
  { unfold pack_double, CONTRACT_RECORD_SIZE. rewrite !length_app, !le_bytes_length. lia. }
  split; [exact Hlen|].
  unfold Contract_unpack. rewrite decide_True by exact Hlen. unfold CONTRACT_FIELDS.
  rewrite !split_fields_app
    by (unfold pack_double; rewrite ?le_bytes_length; first [reflexivity | assumption]).
  rewrite split_fields_last by assumption.
  rewrite Hd, Hd0, Hd1, Hd2, Hd3, Hd4. cbn [mbind result_bind mret result_ret].
  unfold pack_double. rewrite !le_value_bytes by (simpl; lia). reflexivity.
Qed.

Lemma rstrip_space_id (s : py_str) : no_trailing_space s -> rstrip_space s = s.
Proof.
  intros H. pose proof (rstrip_space_app_spaces s 0 H) as Hr.
  rewrite app_nil_r in Hr. exact Hr.
Qed.

Ltac no_trailing_facts H :=
  repeat (apply Forall_cons in H as [?H H]); clear H;
  repeat match goal with
  | Hn : no_trailing_space _ |- _ => rewrite (rstrip_space_id _ Hn); clear Hn
  end.

Ltac text_fits_tac :=
  split; [apply (bool_decide_unpack _); vm_compute; reflexivity
         | eexists; split; [vm_compute; reflexivity | vm_compute; lia]].

(** Settles [*_fits] and [*_no_trailing] on concrete records. *)
Ltac decide_tac := apply (bool_decide_unpack _); vm_compute; reflexivity.
Ltac record_facts :=
  first
    [ decide_tac
    | hnf; repeat (match goal with |- _ /\ _ => split end);
      first [decide_tac | text_fits_tac] ].

(** ** C1: the record codec round trip *)

(** C1 (as amended): for every Car, Customer and Contract whose text
    fields are encodable and fit their byte widths, whose year fits a
    uint32 and whose floats are binary64 bit patterns, and whose text
    fields do not end with a space, unpacking the packed record gives the
    record back. *)
Theorem record_roundtrip :
  (forall c : Car, Car_fits c -> Car_no_trailing c ->
     (b ← Car_pack c; Car_unpack b) = Ok c) /\
  (forall c : Customer, Customer_fits c -> Customer_no_trailing c ->
     (b ← Customer_pack c; Customer_unpack b) = Ok c) /\
  (forall c : Contract, Contract_fits c -> Contract_no_trailing c ->
     (b ← Contract_pack c; Contract_unpack b) = Ok c).
Proof.
  split; [|split].
  - intros c Hf Hn. destruct (Car_unpack_pack c Hf) as [bs [Hp [_ Hu]]].
    rewrite Hp. cbn [mbind result_bind]. rewrite Hu. unfold Car_rstrip.
    unfold Car_no_trailing in Hn. no_trailing_facts Hn. destruct c; reflexivity.
  - intros c Hf Hn. destruct (Customer_unpack_pack c Hf) as [bs [Hp [_ Hu]]].
    rewrite Hp. cbn [mbind result_bind]. rewrite Hu. unfold Customer_rstrip.
    unfold Customer_no_trailing in Hn. no_trailing_facts Hn. destruct c; reflexivity.
  - intros c Hf Hn. destruct (Contract_unpack_pack c Hf) as [bs [Hp [_ Hu]]].
    rewrite Hp. cbn [mbind result_bind]. rewrite Hu. unfold Contract_rstrip.
    unfold Contract_no_trailing in Hn. no_trailing_facts Hn. destruct c; reflexivity.
Qed.

Lemma record_roundtrip_witness :
  (b ← Car_pack sample_car; Car_unpack b) = Ok sample_car /\
  (b ← Customer_pack sample_customer; Customer_unpack b) = Ok sample_customer /\
  (b ← Contract_pack sample_contract; Contract_unpack b) = Ok sample_contract.
Proof.
  destruct record_roundtrip as (Hcar & Hcust & Hcon).
  split; [|split].
  - apply Hcar; record_facts.
  - apply Hcust; record_facts.
  - apply Hcon; record_facts.
Defined.

(** C1 (as stated): the round trip fails for a car whose id ends with a
    space, though every field fits: decoding strips the space. *)
Lemma record_roundtrip_trailing_space :
  Car_fits car_trailing_id /\
  (b ← Car_pack car_trailing_id; Car_unpack b) <> Ok car_trailing_id /\
  ~ (forall c : Car, Car_fits c -> (b ← Car_pack c; Car_unpack b) = Ok c).
Proof.
  assert (Hf : Car_fits car_trailing_id) by record_facts.
  assert (Hne : (b ← Car_pack car_trailing_id; Car_unpack b) <> Ok car_trailing_id)
    by (vm_compute; congruence).
  split; [exact Hf|]. split; [exact Hne|].
  intros H. exact (Hne (H _ Hf)).
Qed.

(** ** C8: truncation and lossy decoding *)

(** C8: when the UTF-8 encoding [bs] of a string [s] is longer than the
    field width [W], [fixed_bytes s W] does not raise and gives the first
    [W] bytes of [bs], exactly [W] of them; and [bytes_to_str] never
    raises, whatever block it is given (split characters and invalid
    UTF-8 included). *)
Theorem truncation_total :
  (forall (s : py_str) (bs : bytes) (W : nat),
     utf8_encode s = Ok bs -> (W < length bs)%nat ->
     fixed_bytes s W = Ok (take W bs) /\ length (take W bs) = W) /\
  (forall blk : bytes, exists r, bytes_to_str blk = Ok r).
Proof.
  split.
  - intros s bs W He Hl. unfold fixed_bytes. rewrite He.
    cbn [fmap result_fmap mbind result_bind mret result_ret].
    rewrite length_take, Nat.min_l by lia. rewrite Nat.sub_diag. cbn.
    rewrite app_nil_r. split; reflexivity.
  - intros blk. apply utf8_decode_ignore_total.
Qed.

(** A Thai character cut after two of its three bytes. *)
Lemma truncation_total_witness :
  fixed_bytes [0xE01] 2 = Ok [0xE0; 0xB8] /\ bytes_to_str [0xE0; 0xB8] = Ok [].
Proof.
  split.
  - exact (proj1 (proj1 truncation_total [0xE01] [0xE0; 0xB8; 0x81] 2%nat
                    eq_refl ltac:(simpl; lia))).
  - reflexivity.
Defined.

(** ** C9 and C10: day count and cost *)

(** C9: from 2025-09-20 to 2025-09-25 [date_diff_days] counts 6 days,
    and 6 days at 2500.0 a day cost exactly 15000.0. *)
Theorem contract_cost_scenario :
  date_diff_days (str "2025-09-20") (str "2025-09-25") = Ok 6 /\
  est_cost 6 (float_of_int 2500) = float_of_int 15000.
Proof. split; vm_compute; reflexivity. Qed.

(** C10: when both dates are valid and the end date [b] precedes the
    start date [a], [date_diff_days a b] is 0, and the cost computed from
    0 days is, for every daily rate, not below 0.0. *)
Theorem date_diff_clamped (a b : py_str) (da db : Z * Z * Z) :
  parse_date a = Ok da -> parse_date b = Ok db -> toordinal db < toordinal da ->
  date_diff_days a b = Ok 0 /\
  (forall price : py_float, float_lt (est_cost 0 price) (float_of_int 0) = false).
Proof.
  intros Ha Hb Hlt. split.
  - unfold date_diff_days. rewrite Ha, Hb. cbn. f_equal. lia.
  - intros price. unfold est_cost, float_mul, float_lt.
    destruct (sf_of_bits price) as [s|s| |s m e]; try destruct s; vm_compute; reflexivity.
Qed.

Lemma date_diff_clamped_witness :
  date_diff_days (str "2025-09-25") (thai_digits (str "2025") ++ str "-09-20") = Ok 0.
Proof.
  exact (proj1 (date_diff_clamped (str "2025-09-25") (thai_digits (str "2025") ++ str "-09-20")
                  (2025, 9, 25) (2025, 9, 20)
                  ltac:(vm_compute; reflexivity) ltac:(vm_compute; reflexivity)
                  ltac:(vm_compute; reflexivity))).
Defined.

(** ** The file layer *)

Ltac run_M H :=
  unfold mbind, M_bind, mret, M_ret, io_op, lift in H; cbn beta iota in H.

Section file_layer.
Variable faults : nat -> bool.

Lemma write_all_spec p rs : forall w r w' acc,
  files w !! p = Some acc ->
  write_all faults p rs w = (r, w') ->
  (forall q, q <> p -> files w' !! q = files w !! q) /\
  (r = Ok tt -> files w' = <[p := acc ++ concat rs]> (files w)) /\
  ((forall k, faults k = false) -> r = Ok tt) /\ (r = Ok tt \/ r = Err OSError).
Proof.
  induction rs as [|r0 rs IH]; intros w r w' acc Hp Hrun; cbn [write_all] in Hrun.
  - run_M Hrun. injection Hrun as <- <-. split; [reflexivity|]. split; [|split; auto].
    intros _. rewrite app_nil_r, insert_id; auto.
  - unfold write_file in Hrun. run_M Hrun. rewrite Hp in Hrun.
    destruct (faults (clock w)) eqn:Hk.
    + injection Hrun as <- <-. split; [reflexivity|]. split; [discriminate|].
      split; [|auto]. intros Hnf. rewrite Hnf in Hk. discriminate.
    + change (default [] (Some acc)) with acc in Hrun.
      destruct (IH _ _ _ (acc ++ r0) (lookup_insert_eq _ _ _) Hrun) as (Hf & Hok & Hnf & Hr').
      split; [|split; [|split; assumption]].
      * intros q Hq. rewrite Hf by exact Hq. cbn. apply lookup_insert_ne. congruence.
      * intros Hr. rewrite Hok by exact Hr. cbn. rewrite insert_insert_eq, <- app_assoc.
        reflexivity.
Qed.

Lemma tmp_name_ne (filename : string) : String.append filename ".tmp" <> filename.
Proof.
  induction filename as [|a s IH]; simpl; [discriminate|].
  intros H. injection H as H. exact (IH H).
Qed.

Lemma overwrite_all_raw_spec filename records w r w' :
  overwrite_all_raw faults filename records w = (r, w') ->
  (r = Ok tt /\
   files w' = <[filename := concat records]> (delete (String.append filename ".tmp") (files w)))
  \/ (r = Err OSError /\ files w' !! filename = files w !! filename).
Proof.
  intros Hrun. pose proof (tmp_name_ne filename) as Hne.
  unfold overwrite_all_raw, open_wb in Hrun.
  set (tmp := String.append filename ".tmp") in *.
  run_M Hrun. destruct (faults (clock w)).
  { injection Hrun as <- <-. right. split; reflexivity. }
  cbn iota in Hrun.
  destruct (write_all faults tmp records
              {| files := <[tmp:=[]]> (files w); clock := S (clock w) |}) as [r2 w2] eqn:E.
  destruct (write_all_spec tmp records _ _ _ [] (lookup_insert_eq _ _ _) E)
    as (Hf & Hok & _ & Hr2).
  assert (Hfn : files w2 !! filename = files w !! filename).
  { rewrite Hf by congruence. cbn. apply lookup_insert_ne. congruence. }
  destruct Hr2 as [-> | ->].
  2: { injection Hrun as <- <-. right. split; [reflexivity | exact Hfn]. }
  specialize (Hok eq_refl). unfold os_replace in Hrun. run_M Hrun.
  destruct (faults (clock w2)).
  { injection Hrun as <- <-. right. split; [reflexivity | exact Hfn]. }
  rewrite Hok, lookup_insert_eq in Hrun. cbn in Hrun.
  injection Hrun as <- <-. left. split; [reflexivity|]. cbn.
  rewrite !delete_insert_eq. reflexivity.
Qed.

Lemma overwrite_all_raw_no_faults filename records w r w' :
  (forall k, faults k = false) ->
  overwrite_all_raw faults filename records w = (r, w') -> r = Ok tt.
Proof.
  intros Hnf Hrun. unfold overwrite_all_raw, open_wb in Hrun.
  run_M Hrun. rewrite Hnf in Hrun. cbn iota in Hrun.
  destruct (write_all faults _ records _) as [r2 w2] eqn:E.
  destruct (write_all_spec _ records _ _ _ [] (lookup_insert_eq _ _ _) E)
    as (_ & Hok & Hnf2 & _).
  rewrite (Hnf2 Hnf) in Hrun. specialize (Hok (Hnf2 Hnf)).
  unfold os_replace in Hrun. run_M Hrun. rewrite Hnf, Hok, lookup_insert_eq in Hrun.
  cbn in Hrun. injection Hrun as <- _. reflexivity.
Qed.
End file_layer.

(** ** Reading a file back as records *)

Lemma iter_raw_concat n (rs : list bytes) : forall fuel,
  (0 < n)%nat -> Forall (fun b => length b = n) rs ->
  (length (concat rs) < fuel)%nat -> iter_raw fuel n (concat rs) = rs.
Proof.
  induction rs as [|r rs IH]; intros fuel Hn HF Hl; (destruct fuel as [|fuel]; [lia|]).
  - cbn [concat iter_raw]. rewrite take_nil. reflexivity.
  - apply Forall_cons in HF as [Hr HF]. cbn [concat iter_raw].
    assert (Ht : take n (r ++ concat rs) = r) by (rewrite <- Hr; apply take_app_length).
    assert (Hd : drop n (r ++ concat rs) = concat rs)
      by (rewrite <- Hr; apply drop_app_length).
    rewrite Ht, Hd, Hr.
    replace (n =? 0)%nat with false by (symmetry; apply Nat.eqb_neq; lia).
    rewrite Nat.ltb_irrefl. cbn [orb]. f_equal.
    apply IH; [lia | exact HF |]. cbn [concat] in Hl. rewrite length_app in Hl. lia.
Qed.

Lemma records_of_concat n (rs : list bytes) :
  (0 < n)%nat -> Forall (fun b => length b = n) rs -> records_of n (concat rs) = rs.
Proof. intros Hn HF. apply iter_raw_concat; auto. Qed.

Lemma iter_raw_lengths fuel n (bs : bytes) :
  Forall (fun b => length b = n) (iter_raw fuel n bs).
Proof.
  revert bs. induction fuel as [|fuel IH]; intros bs; cbn [iter_raw]; [constructor|].
  destruct ((length (take n bs) =? 0)%nat || (length (take n bs) <? n)%nat) eqn:Hc;
    [constructor|].
  apply orb_false_iff in Hc as [_ Hc]. apply Nat.ltb_ge in Hc.
  constructor; [|apply IH]. rewrite length_take in *. lia.
Qed.

Lemma records_of_lengths n (bs : bytes) : Forall (fun b => length b = n) (records_of n bs).
Proof. apply iter_raw_lengths. Qed.

(** ** The entity laws *)

Lemma pack_s_length n (b : bytes) : length (pack_s n b) = n.
Proof. unfold pack_s. rewrite length_app, length_take, length_replicate. lia. Qed.

Lemma pack_uint32_length x y : pack_uint32 x = Ok y -> length y = 4%nat.
Proof.
  unfold pack_uint32. destruct (_ && _); [|discriminate].
  intros H. injection H as <-. reflexivity.
Qed.

Lemma bytes_to_str_total (blk : bytes) : exists r, bytes_to_str blk = Ok r.
Proof. apply utf8_decode_ignore_total. Qed.

(** Runs the binds of a [result] computation known to succeed. *)
Ltac ok_binds H :=
  repeat (unfold mbind, result_bind in H; cbn beta iota in H;
          match type of H with
          | context [match ?x with Ok _ => _ | Err _ => _ end] =>
            let a := fresh "a" in let Ha := fresh "Ha" in
            destruct x as [a|?] eqn:Ha; [|discriminate]
          end);
  unfold mret, result_ret in H; injection H as <-.

(** Settles the totality of an unpacking function on blocks of its size. *)
Ltac unpack_total :=
  repeat (match goal with
          | |- context [bytes_to_str ?x] =>
            let r := fresh "r" in let Hr := fresh "Hr" in
            destruct (bytes_to_str_total x) as [r Hr]; rewrite Hr
          end; cbn [mbind result_bind]);
  cbn [mret result_ret]; eexists; reflexivity.

Lemma Car_pack_length c b : Car_pack c = Ok b -> length b = CAR_RECORD_SIZE.
Proof.
  unfold Car_pack. intros H. ok_binds H.
  apply pack_uint32_length in Ha5.
  repeat first [rewrite length_app | rewrite pack_s_length | rewrite Ha5 | progress cbn [length]]. reflexivity.
Qed.

Lemma Customer_pack_length c b : Customer_pack c = Ok b -> length b = CUST_RECORD_SIZE.
Proof.
  unfold Customer_pack. intros H. ok_binds H.
  repeat first [rewrite length_app | rewrite pack_s_length | progress cbn [length]]. reflexivity.
Qed.

Lemma Contract_pack_length c b : Contract_pack c = Ok b -> length b = CONTRACT_RECORD_SIZE.
Proof.
  unfold Contract_pack. intros H. ok_binds H.
  repeat first [rewrite length_app | rewrite pack_s_length | progress cbn [length]]. reflexivity.
Qed.

Lemma Car_unpack_total b : length b = CAR_RECORD_SIZE -> exists c, Car_unpack b = Ok c.
Proof.
  intros Hl. unfold Car_unpack. rewrite decide_True by exact Hl.
  cbn [CAR_FIELDS split_fields]. unpack_total.
Qed.

Lemma Customer_unpack_total b : length b = CUST_RECORD_SIZE -> exists c, Customer_unpack b = Ok c.
Proof.
  intros Hl. unfold Customer_unpack. rewrite decide_True by exact Hl.
  cbn [CUST_FIELDS split_fields]. unpack_total.
Qed.

Lemma Contract_unpack_total b :
  length b = CONTRACT_RECORD_SIZE -> exists c, Contract_unpack b = Ok c.
Proof.
  intros Hl. unfold Contract_unpack. rewrite decide_True by exact Hl.
  cbn [CONTRACT_FIELDS split_fields]. unpack_total.
Qed.

Global Instance Car_laws : EntityLaws Car.
Proof.
  split; [cbv; lia | exact Car_unpack_total | exact Car_pack_length].
Qed.
Global Instance Customer_laws : EntityLaws Customer.
Proof.
  split; [cbv; lia | exact Customer_unpack_total | exact Customer_pack_length].
Qed.
Global Instance Contract_laws : EntityLaws Contract.
Proof.
  split; [cbv; lia | exact Contract_unpack_total | exact Contract_pack_length].
Qed.

(** ** The repositories *)

Section repository_laws.
Context {E : Type} `{EntityLaws E}.

Lemma mapM_unpack_total (raw : list bytes) :
  Forall (fun b => length b = @recsize E _) raw ->
  exists cs : list E, mapM e_unpack raw = Ok cs /\
                      Forall2 (fun b c => e_unpack b = Ok c) raw cs.
Proof.
  induction raw as [|b raw IH]; intros HF.
  - exists []. split; [reflexivity | constructor].
  - apply Forall_cons in HF as [Hb HF].
    destruct (unpack_total b Hb) as [c Hc]. destruct (IH HF) as [cs [Hm H2]].
    exists (c :: cs). split; [|constructor; assumption].
    cbn [mapM]. rewrite Hc. cbn [mbind result_bind]. rewrite Hm. reflexivity.
Qed.

Lemma find_first_hit (id : py_str) raw (cs : list E) b c :
  Forall2 (fun b c => e_unpack b = Ok c) raw cs ->
  b ∈ raw -> e_unpack b = Ok c -> e_ident c = id ->
  exists c', find_first id cs = Some c'.
Proof.
  induction 1 as [|x y raw cs Hxy _ IH]; intros Hin Hb Hid;
    [apply elem_of_nil in Hin; contradiction|].
  cbn [find_first]. case_bool_decide as Hy; [eauto|].
  apply elem_of_cons in Hin as [-> | Hin]; [|auto].
  rewrite Hxy in Hb. injection Hb as ->. contradiction.
Qed.

Lemma update_scan_miss (id : py_str) (new : E) raw :
  Forall (fun b => length b = @recsize E _) raw -> Forall (@no_match E _ id) raw ->
  update_scan id new raw = Ok (raw, false).
Proof.
  induction raw as [|b raw IH]; intros HL HN; [reflexivity|].
  apply Forall_cons in HL as [Hb HL]. apply Forall_cons in HN as [Hn HN].
  destruct (unpack_total b Hb) as [c Hc].
  cbn [update_scan]. rewrite Hc. cbn [mbind result_bind].
  rewrite bool_decide_false by exact (Hn c Hc). cbn [mbind result_bind].
  rewrite IH by assumption. reflexivity.
Qed.

Lemma update_scan_hit (id : py_str) (new : E) pre b post c nb :
  Forall (fun b => length b = @recsize E _) (pre ++ post) ->
  Forall (@no_match E _ id) (pre ++ post) ->
  e_unpack b = Ok c -> e_ident c = id -> e_pack new = Ok nb ->
  update_scan id new (pre ++ b :: post) = Ok (pre ++ nb :: post, true).
Proof.
  intros HL HN Hc Hid Hp.
  apply Forall_app in HL as [HLpre HLpost]. apply Forall_app in HN as [HNpre HNpost].
  induction pre as [|b' pre IH]; cbn [app update_scan].
  - rewrite Hc. cbn [mbind result_bind]. rewrite bool_decide_true by exact Hid.
    rewrite Hp. cbn [mbind result_bind].
    rewrite update_scan_miss by assumption. reflexivity.
  - apply Forall_cons in HLpre as [Hb HLpre]. apply Forall_cons in HNpre as [Hn HNpre].
    destruct (unpack_total b' Hb) as [c' Hc'].
    rewrite Hc'. cbn [mbind result_bind].
    rewrite bool_decide_false by exact (Hn c' Hc'). cbn [mbind result_bind].
    rewrite IH by assumption. reflexivity.
Qed.
End repository_laws.

Ltac run_scan Hf Hs :=
  unfold read_all_raw, read_file;
  unfold mbind, M_bind, mret, M_ret, io_op, lift; cbn beta iota;
  rewrite Hf;
  match goal with |- context [if ?f (clock ?w) then _ else _] => destruct (f (clock w)) end;
  [reflexivity|];
  cbn beta iota; rewrite Hs; cbn beta iota;
  match type of Hs with _ = Ok (_, ?c) => destruct c; reflexivity end.

Section repository_runs.
Context {E : Type} `{EntityLaws E}.
Variable faults : nat -> bool.

Lemma repo_update_run filename id (new : E) w bs out changed :
  files w !! filename = Some bs ->
  update_scan id new (records_of (@recsize E _) bs) = Ok (out, changed) ->
  repo_update faults filename id new w =
    if faults (clock w) then (Err OSError, mkWorld (files w) (S (clock w)))
    else if changed
         then (overwrite_all_raw faults filename out;; mret true)
                (mkWorld (files w) (S (clock w)))
         else (Ok false, mkWorld (files w) (S (clock w))).
Proof. intros Hf Hs. unfold repo_update. run_scan Hf Hs. Qed.

Lemma repo_add_dup filename (e : E) w bs b c :
  files w !! filename = Some bs ->
  b ∈ records_of (@recsize E _) bs -> e_unpack b = Ok c -> e_ident c = e_ident e ->
  repo_add faults filename e w =
    if faults (clock w) then (Err OSError, mkWorld (files w) (S (clock w)))
    else (Ok false, mkWorld (files w) (S (clock w))).
Proof.
  intros Hf Hin Hb Hid.
  destruct (mapM_unpack_total (records_of (@recsize E _) bs) (records_of_lengths _ _))
    as [cs [Hm H2]].
  destruct (find_first_hit _ _ _ _ _ H2 Hin Hb Hid) as [c' Hc'].
  unfold repo_add, repo_find, repo_all, read_all_raw, read_file.
  unfold mbind, M_bind, mret, M_ret, io_op, lift; cbn beta iota.
  rewrite Hf. destruct (faults (clock w)); [reflexivity|].
  cbn beta iota. rewrite Hm. cbn beta iota. rewrite Hc'. reflexivity.
Qed.
End repository_runs.

Lemma mark_deleted_run faults filename id w bs out changed :
  files w !! filename = Some bs ->
  mark_scan id (records_of CAR_RECORD_SIZE bs) = Ok (out, changed) ->
  mark_deleted faults filename id w =
    if faults (clock w) then (Err OSError, mkWorld (files w) (S (clock w)))
    else if changed
         then (overwrite_all_raw faults filename out;; mret true)
                (mkWorld (files w) (S (clock w)))
         else (Ok false, mkWorld (files w) (S (clock w))).
Proof. intros Hf Hs. unfold mark_deleted. run_scan Hf Hs. Qed.

Lemma delete_customer_run faults filename cid w bs out found :
  files w !! filename = Some bs ->
  delete_scan cid (records_of CUST_RECORD_SIZE bs) = Ok (out, found) ->
  delete_customer faults filename cid w =
    if faults (clock w) then (Err OSError, mkWorld (files w) (S (clock w)))
    else if found
         then (overwrite_all_raw faults filename out;; mret true)
                (mkWorld (files w) (S (clock w)))
         else (Ok false, mkWorld (files w) (S (clock w))).
Proof. intros Hf Hs. unfold delete_customer. run_scan Hf Hs. Qed.

Lemma mark_scan_miss id raw :
  Forall (fun b => length b = CAR_RECORD_SIZE) raw -> Forall (@no_match Car _ id) raw ->
  mark_scan id raw = Ok (raw, false).
Proof.
  induction raw as [|b raw IH]; intros HL HN; [reflexivity|].
  apply Forall_cons in HL as [Hb HL]. apply Forall_cons in HN as [Hn HN].
  destruct (Car_unpack_total b Hb) as [c Hc].
  cbn [mark_scan]. rewrite Hc. cbn [mbind result_bind].
  rewrite bool_decide_false by exact (Hn c Hc). cbn [mbind result_bind].
  rewrite IH by assumption. reflexivity.
Qed.

(** ** C2: adding a duplicate *)

(** C2: when the store already holds a record [b] that decodes to an
    entity with the identity of [e], [add e] changes no file, under any
    fault schedule, and never reports success; without faults it reports
    [False]. *)
Theorem add_duplicate {E} `{EntityLaws E} (faults : nat -> bool) (filename : string)
    (e : E) (w : world) (bs b : bytes) (c : E) :
  files w !! filename = Some bs ->
  b ∈ records_of (@recsize E _) bs -> e_unpack b = Ok c -> e_ident c = e_ident e ->
  files (snd (repo_add faults filename e w)) = files w /\
  fst (repo_add faults filename e w) <> Ok true /\
  fst (repo_add no_faults filename e w) = Ok false.
Proof.
  intros Hf Hin Hb Hid.
  rewrite (repo_add_dup faults filename e w bs b c Hf Hin Hb Hid).
  rewrite (repo_add_dup no_faults filename e w bs b c Hf Hin Hb Hid).
  destruct (faults (clock w)); cbn; repeat split; congruence.
Qed.

Lemma add_duplicate_witness :
  fst (repo_add no_faults CARS_FILE sample_car (car_store sample_car_bytes)) = Ok false.
Proof.
  exact (proj2 (proj2 (add_duplicate no_faults CARS_FILE sample_car
           (car_store sample_car_bytes) sample_car_bytes sample_car_bytes sample_car
           ltac:(vm_compute; reflexivity) ltac:(decide_tac)
           ltac:(vm_compute; reflexivity) ltac:(vm_compute; reflexivity)))).
Defined.

(** ** C3: updating one record *)

(** C3: without faults, when exactly one record [b] of the store holds
    identity [id] and [new] encodes to [nb], [update id new] reports
    success, the file becomes the records in their order with [b]
    replaced by [nb] (the temporary file is gone, no other file changed),
    and reading it back gives as many records as before. *)
Theorem update_replaces_one {E} `{EntityLaws E} (filename : string) (id : py_str)
    (new : E) (nb : bytes) (w : world) (bs : bytes) pre (b : bytes) post (c : E) :
  files w !! filename = Some bs ->
  records_of (@recsize E _) bs = pre ++ b :: post ->
  e_unpack b = Ok c -> e_ident c = id ->
  Forall (@no_match E _ id) (pre ++ post) ->
  e_pack new = Ok nb ->
  fst (repo_update no_faults filename id new w) = Ok true /\
  files (snd (repo_update no_faults filename id new w)) =
    <[filename := concat (pre ++ nb :: post)]>
      (delete (String.append filename ".tmp") (files w)) /\
  records_of (@recsize E _) (concat (pre ++ nb :: post)) = pre ++ nb :: post.
Proof.
  intros Hf Hr Hb Hid HN Hp.
  pose proof (records_of_lengths (@recsize E _) bs) as HL. rewrite Hr in HL.
  apply Forall_app in HL as [HLpre HLpost]. apply Forall_cons in HLpost as [_ HLpost].
  assert (HL : Forall (fun b => length b = @recsize E _) (pre ++ post))
    by (apply Forall_app; split; assumption).
  pose proof (update_scan_hit id new pre b post c nb HL HN Hb Hid Hp) as Hs.
  rewrite (repo_update_run no_faults filename id new w bs _ _ Hf
             (eq_trans (f_equal (update_scan id new) Hr) Hs)).
  cbn [no_faults]. unfold mbind, M_bind, mret, M_ret.
  match goal with
  | |- context [overwrite_all_raw ?f ?n ?rs ?w0] =>
    destruct (overwrite_all_raw f n rs w0) as [r w'] eqn:E'
  end.
  pose proof (overwrite_all_raw_no_faults no_faults _ _ _ _ _ (fun _ => eq_refl) E') as ->.
  destruct (overwrite_all_raw_spec no_faults _ _ _ _ _ E') as [[_ Hw] | [? _]];
    [|discriminate].
  split; [reflexivity|]. split; [exact Hw|].
  apply records_of_concat; [apply recsize_pos|].
  apply Forall_app; split; [assumption|]. constructor; [|assumption].
  exact (pack_length new nb Hp).
Qed.

Ltac no_match_tac :=
  repeat constructor; intros ? Hc; vm_compute in Hc; injection Hc as <-;
  vm_compute; discriminate.

Lemma update_replaces_one_witness :
  fst (repo_update no_faults CARS_FILE (str "C001") (with_rented sample_car (str "Yes"))
         (car_store three_cars_bytes)) = Ok true /\
  files (snd (repo_update no_faults CARS_FILE (str "C001") (with_rented sample_car (str "Yes"))
                (car_store three_cars_bytes))) =
    <[CARS_FILE := concat ([car_bytes car_C000] ++ rented_sample_car_bytes :: [car_bytes car_C002])]>
      (delete (String.append CARS_FILE ".tmp") (files (car_store three_cars_bytes))) /\
  records_of CAR_RECORD_SIZE
    (concat ([car_bytes car_C000] ++ rented_sample_car_bytes :: [car_bytes car_C002])) =
    [car_bytes car_C000] ++ rented_sample_car_bytes :: [car_bytes car_C002].
Proof.
  refine (@update_replaces_one Car Car_entity Car_laws CARS_FILE (str "C001")
            (with_rented sample_car (str "Yes")) rented_sample_car_bytes
            (car_store three_cars_bytes) three_cars_bytes [car_bytes car_C000]
            sample_car_bytes [car_bytes car_C002] sample_car _ _ _ _ _ _).
  - reflexivity.
  - vm_compute. reflexivity.
  - vm_compute. reflexivity.
  - reflexivity.
  - no_match_tac.
  - vm_compute. reflexivity.
Defined.

(** ** C4: the atomic overwrite *)

(** C4: under every fault schedule, when [overwrite_all_raw] succeeds the
    file holds exactly the concatenation of the given blocks, in order;
    when it raises, at whatever step (writing the temporary file or the
    rename), the file's content is what it was before. *)
Theorem overwrite_atomic (faults : nat -> bool) (filename : string)
    (records : list bytes) (w : world) :
  (fst (overwrite_all_raw faults filename records w) = Ok tt ->
   files (snd (overwrite_all_raw faults filename records w)) !! filename
     = Some (concat records)) /\
  (fst (overwrite_all_raw faults filename records w) <> Ok tt ->
   files (snd (overwrite_all_raw faults filename records w)) !! filename
     = files w !! filename).
Proof.
  destruct (overwrite_all_raw faults filename records w) as [r w'] eqn:E.
  destruct (overwrite_all_raw_spec faults _ _ _ _ _ E) as [[-> Hw] | [-> Hw]];
    cbn [fst snd]; split; intros Hr; try congruence.
  rewrite Hw. apply lookup_insert_eq.
Qed.

(** A failure of the second write leaves the old content in place. *)
Lemma overwrite_atomic_witness :
  files (snd (overwrite_all_raw (fun n => (n =? 2)%nat) CARS_FILE [[4]; [5]]
                (car_store [1; 2; 3]))) !! CARS_FILE = Some [1; 2; 3] /\
  files (snd (overwrite_all_raw no_faults CARS_FILE [[4]; [5]]
                (car_store [1; 2; 3]))) !! CARS_FILE = Some [4; 5].
Proof.
  split.
  - exact (proj2 (overwrite_atomic (fun n => (n =? 2)%nat) CARS_FILE [[4]; [5]]
                    (car_store [1; 2; 3])) ltac:(vm_compute; discriminate)).
  - exact (proj1 (overwrite_atomic no_faults CARS_FILE [[4]; [5]]
                    (car_store [1; 2; 3])) ltac:(vm_compute; reflexivity)).
Defined.

(** ** C7: no matching record *)

(** C7: when no record of the store holds identity [id], [update] (of
    any repository) and [mark_deleted] change no file under any fault
    schedule, and without faults report [False]. *)
Theorem not_found_unchanged :
  (forall (E : Type) (HE : Entity E) (HL : @EntityLaws E HE) (faults : nat -> bool)
          (filename : string) (id : py_str) (new : E) (w : world) (bs : bytes),
     files w !! filename = Some bs ->
     Forall (@no_match E _ id) (records_of (@recsize E _) bs) ->
     files (snd (repo_update faults filename id new w)) = files w /\
     fst (repo_update no_faults filename id new w) = Ok false) /\
  (forall (faults : nat -> bool) (filename : string) (id : py_str) (w : world) (bs : bytes),
     files w !! filename = Some bs ->
     Forall (@no_match Car _ id) (records_of CAR_RECORD_SIZE bs) ->
     files (snd (mark_deleted faults filename id w)) = files w /\
     fst (mark_deleted no_faults filename id w) = Ok false).
Proof.
  split.
  - intros E HE HL faults filename id new w bs Hf HN.
    pose proof (update_scan_miss id new _ (records_of_lengths _ bs) HN) as Hs.
    rewrite (repo_update_run faults filename id new w bs _ _ Hf Hs).
    rewrite (repo_update_run no_faults filename id new w bs _ _ Hf Hs).
    destruct (faults (clock w)); split; reflexivity.
  - intros faults filename id w bs Hf HN.
    pose proof (mark_scan_miss id _ (records_of_lengths _ bs) HN) as Hs.
    rewrite (mark_deleted_run faults filename id w bs _ _ Hf Hs).
    rewrite (mark_deleted_run no_faults filename id w bs _ _ Hf Hs).
    destruct (faults (clock w)); split; reflexivity.
Qed.

Lemma not_found_unchanged_witness :
  fst (repo_update no_faults CARS_FILE (str "C002") sample_car
         (car_store sample_car_bytes)) = Ok false /\
  fst (mark_deleted no_faults CARS_FILE (str "C002") (car_store sample_car_bytes)) = Ok false.
Proof.
  assert (HN : Forall (@no_match Car _ (str "C002")) (records_of CAR_RECORD_SIZE sample_car_bytes)).
  { replace (records_of CAR_RECORD_SIZE sample_car_bytes) with [sample_car_bytes]
      by (vm_compute; reflexivity).
    constructor; [|constructor]. intros c Hc.
    change (Car_unpack sample_car_bytes = Ok c) in Hc.
    replace (Car_unpack sample_car_bytes) with (Ok sample_car) in Hc
      by (vm_compute; reflexivity).
    injection Hc as <-. vm_compute. discriminate. }
  split.
  - exact (proj2 (proj1 not_found_unchanged Car _ _ no_faults CARS_FILE (str "C002")
                    sample_car (car_store sample_car_bytes) sample_car_bytes
                    ltac:(vm_compute; reflexivity) HN)).
  - exact (proj2 (proj2 not_found_unchanged no_faults CARS_FILE (str "C002")
                    (car_store sample_car_bytes) sample_car_bytes
                    ltac:(vm_compute; reflexivity) HN)).
Defined.

Lemma delete_scan_miss cid raw :
  Forall (fun b => length b = CUST_RECORD_SIZE) raw -> Forall (@no_match Customer _ cid) raw ->
  delete_scan cid raw = Ok (raw, false).
Proof.
  induction raw as [|b raw IH]; intros HL HN; [reflexivity|].
  apply Forall_cons in HL as [Hb HL]. apply Forall_cons in HN as [Hn HN].
  destruct (Customer_unpack_total b Hb) as [c Hc].
  cbn [delete_scan]. rewrite Hc. cbn [mbind result_bind].
  rewrite IH by assumption. cbn [mbind result_bind].
  rewrite bool_decide_false by exact (Hn c Hc). reflexivity.
Qed.

Lemma delete_scan_hit cid pre b post c :
  Forall (fun b => length b = CUST_RECORD_SIZE) (pre ++ post) ->
  Forall (@no_match Customer _ cid) (pre ++ post) ->
  Customer_unpack b = Ok c -> cust_id c = cid ->
  delete_scan cid (pre ++ b :: post) = Ok (pre ++ post, true).
Proof.
  intros HL HN Hc Hid.
  apply Forall_app in HL as [HLpre HLpost]. apply Forall_app in HN as [HNpre HNpost].
  induction pre as [|b' pre IH]; cbn [app delete_scan].
  - rewrite Hc. cbn [mbind result_bind].
    rewrite delete_scan_miss by assumption. cbn [mbind result_bind].
    rewrite bool_decide_true by exact Hid. reflexivity.
  - apply Forall_cons in HLpre as [Hb HLpre]. apply Forall_cons in HNpre as [Hn HNpre].
    destruct (Customer_unpack_total b' Hb) as [c' Hc'].
    rewrite Hc'. cbn [mbind result_bind].
    rewrite IH by assumption. cbn [mbind result_bind].
    rewrite bool_decide_false by exact (Hn c' Hc'). reflexivity.
Qed.

(** Runs the overwrite that ends a fault-free scan. *)
Ltac finish_overwrite :=
  cbn [no_faults]; unfold mbind, M_bind, mret, M_ret;
  match goal with
  | |- context [overwrite_all_raw ?f ?n ?rs ?w0] =>
    let r := fresh "r" in let w' := fresh "w'" in let E' := fresh "E'" in
    destruct (overwrite_all_raw f n rs w0) as [r w'] eqn:E';
    pose proof (overwrite_all_raw_no_faults no_faults _ _ _ _ _ (fun _ => eq_refl) E') as ->;
    destruct (overwrite_all_raw_spec no_faults _ _ _ _ _ E') as [[_ ?Hw] | [? _]];
      [|discriminate]
  end.

(** ** C5: the hard delete of a customer *)

(** C5: without faults, when exactly one record [b] of the customer store
    holds identity [cid], [delete_customer] reports success and the file
    becomes the other records in their order (reading it back gives one
    record less); when no record holds [cid], no file changes under any
    fault schedule, and without faults the result is [False]. *)
Theorem delete_removes_one :
  (forall (filename : string) (cid : py_str) (w : world) (bs : bytes) pre (b : bytes) post
          (c : Customer),
     files w !! filename = Some bs ->
     records_of CUST_RECORD_SIZE bs = pre ++ b :: post ->
     Customer_unpack b = Ok c -> cust_id c = cid ->
     Forall (@no_match Customer _ cid) (pre ++ post) ->
     fst (delete_customer no_faults filename cid w) = Ok true /\
     files (snd (delete_customer no_faults filename cid w)) =
       <[filename := concat (pre ++ post)]>
         (delete (String.append filename ".tmp") (files w)) /\
     records_of CUST_RECORD_SIZE (concat (pre ++ post)) = pre ++ post) /\
  (forall (faults : nat -> bool) (filename : string) (cid : py_str) (w : world) (bs : bytes),
     files w !! filename = Some bs ->
     Forall (@no_match Customer _ cid) (records_of CUST_RECORD_SIZE bs) ->
     files (snd (delete_customer faults filename cid w)) = files w /\
     fst (delete_customer no_faults filename cid w) = Ok false).
Proof.
  split.
  - intros filename cid w bs pre b post c Hf Hr Hb Hid HN.
    pose proof (records_of_lengths CUST_RECORD_SIZE bs) as HL. rewrite Hr in HL.
    apply Forall_app in HL as [HLpre HLpost]. apply Forall_cons in HLpost as [_ HLpost].
    assert (HL : Forall (fun b => length b = CUST_RECORD_SIZE) (pre ++ post))
      by (apply Forall_app; split; assumption).
    pose proof (delete_scan_hit cid pre b post c HL HN Hb Hid) as Hs.
    rewrite (delete_customer_run no_faults filename cid w bs _ _ Hf
               (eq_trans (f_equal (delete_scan cid) Hr) Hs)).
    finish_overwrite.
    split; [reflexivity|]. split; [exact Hw|].
    apply records_of_concat; [cbv; lia | exact HL].
  - intros faults filename cid w bs Hf HN.
    pose proof (delete_scan_miss cid _ (records_of_lengths _ bs) HN) as Hs.
    rewrite (delete_customer_run faults filename cid w bs _ _ Hf Hs).
    rewrite (delete_customer_run no_faults filename cid w bs _ _ Hf Hs).
    destruct (faults (clock w)); split; reflexivity.
Qed.

Lemma delete_removes_one_witness :
  (fst (delete_customer no_faults CUSTOMERS_FILE (str "CU01")
          (customer_store three_customers_bytes)) = Ok true /\
   files (snd (delete_customer no_faults CUSTOMERS_FILE (str "CU01")
                 (customer_store three_customers_bytes))) =
     <[CUSTOMERS_FILE := concat ([cust_bytes cust_CU00] ++ [cust_bytes cust_CU02])]>
       (delete (String.append CUSTOMERS_FILE ".tmp") (files (customer_store three_customers_bytes))) /\
   records_of CUST_RECORD_SIZE (concat ([cust_bytes cust_CU00] ++ [cust_bytes cust_CU02])) =
     [cust_bytes cust_CU00] ++ [cust_bytes cust_CU02]) /\
  files (snd (delete_customer no_faults CUSTOMERS_FILE (str "CU09")
                (customer_store three_customers_bytes))) =
    files (customer_store three_customers_bytes) /\
  fst (delete_customer no_faults CUSTOMERS_FILE (str "CU09")
         (customer_store three_customers_bytes)) = Ok false.
Proof.
  split.
  - refine (proj1 delete_removes_one CUSTOMERS_FILE (str "CU01")
              (customer_store three_customers_bytes) three_customers_bytes
              [cust_bytes cust_CU00] sample_customer_bytes [cust_bytes cust_CU02]
              sample_customer _ _ _ _ _).
    + reflexivity.
    + vm_compute. reflexivity.
    + vm_compute. reflexivity.
    + reflexivity.
    + no_match_tac.
  - refine (proj2 delete_removes_one no_faults CUSTOMERS_FILE (str "CU09")
              (customer_store three_customers_bytes) three_customers_bytes _ _).
    + reflexivity.
    + replace (records_of CUST_RECORD_SIZE three_customers_bytes)
        with [cust_bytes cust_CU00; sample_customer_bytes; cust_bytes cust_CU02]
        by (vm_compute; reflexivity).
      no_match_tac.
Defined.

Lemma le_value_range (f : bytes) :
  Forall byte_ok f -> 0 <= le_value f < 2 ^ (8 * Z.of_nat (length f)).
Proof.
  induction f as [|x f IH]; intros HF; cbn [le_value length]; [simpl; lia|].
  apply Forall_cons in HF as [Hx HF]. specialize (IH HF). unfold byte_ok in Hx.
  rewrite Nat2Z.inj_succ, Z.mul_succ_r, Z.pow_add_r by lia.
  change (2 ^ 8) with 256. nia.
Qed.

Lemma bytes_to_str_fits (f : bytes) (s : py_str) (W : nat) :
  Forall byte_ok f -> length f = W -> bytes_to_str f = Ok s -> text_fits s W.
Proof.
  intros HF Hl Hs. unfold bytes_to_str in Hs.
  destruct (rstrip_space_spec f) as [k [Hk _]].
  assert (HF' : Forall byte_ok (rstrip_space f))
    by (rewrite Hk in HF; apply Forall_app in HF as [HF _]; exact HF).
  assert (Hl' : (length (rstrip_space f) <= W)%nat)
    by (assert (Hk' : length f = (length (rstrip_space f) + k)%nat)
          by (rewrite Hk at 1; rewrite length_app, length_replicate; reflexivity);
        lia).
  destruct (utf8_decode_ignore_scalar _ HF' s Hs) as [Hsc [e [He Hle]]].
  split.
  - eapply Forall_impl; [exact Hsc|]. intros x [Hx _]. exact Hx.
  - exists e. split; [exact He | lia].
Qed.

Lemma iter_raw_bytes fuel n (bs : bytes) :
  Forall byte_ok bs -> Forall (Forall byte_ok) (iter_raw fuel n bs).
Proof.
  revert bs. induction fuel as [|fuel IH]; intros bs HF; cbn [iter_raw]; [constructor|].
  destruct (_ || _); [constructor|].
  constructor; [apply Forall_take, HF | apply IH, Forall_drop, HF].
Qed.

Lemma records_of_bytes n (bs : bytes) :
  Forall byte_ok bs -> Forall (Forall byte_ok) (records_of n bs).
Proof. apply iter_raw_bytes. Qed.

Ltac sub_bytes HF := repeat (apply Forall_take || apply Forall_drop); exact HF.

(** A text field decoded from a block of well-formed bytes fits its width. *)
Ltac field_fits HF Hl :=
  match goal with
  | |- text_fits ?s _ =>
    match goal with
    | H : bytes_to_str ?f = Ok s |- _ =>
      apply (bytes_to_str_fits f s);
      [sub_bytes HF | rewrite ?length_take, ?length_drop; lia | exact H]
    end
  end.

(** A number decoded from a block of well-formed bytes fits its format. *)
Ltac num_fits HF Hl :=
  match goal with
  | |- 0 <= le_value (take ?k ?g) < _ =>
    let Hr := fresh "Hr" in
    pose proof (le_value_range (take k g) ltac:(sub_bytes HF)) as Hr;
    replace (length (take k g)) with k in Hr by (rewrite length_take, ?length_drop; lia);
    exact Hr
  end.

Lemma Car_unpack_fits (b : bytes) (c : Car) :
  Forall byte_ok b -> Car_unpack b = Ok c -> Car_fits c.
Proof.
  intros HF H. unfold Car_unpack in H.
  destruct (decide (length b = CAR_RECORD_SIZE)) as [Hl|]; [|discriminate].
  cbn [CAR_FIELDS split_fields] in H. ok_binds H.
  unfold CAR_RECORD_SIZE in Hl. unfold Car_fits.
  cbn [car_id plate brand model year price_per_day status rented].
  split; [field_fits HF Hl|]. split; [field_fits HF Hl|].
  split; [field_fits HF Hl|]. split; [field_fits HF Hl|].
  split; [num_fits HF Hl|]. split; [num_fits HF Hl|].
  split; field_fits HF Hl.
Qed.

Lemma Car_fits_deleted (c : Car) : Car_fits c -> Car_fits (deleted_car c).
Proof.
  intros (H0 & H1 & H2 & H3 & Hy & Hp & _ & H7).
  refine (conj H0 (conj H1 (conj H2 (conj H3 (conj Hy (conj Hp (conj _ H7))))))).
  text_fits_tac.
Qed.

Lemma mark_scan_hit id pre (b : bytes) post (c : Car) nb :
  Forall (fun b => length b = CAR_RECORD_SIZE) (pre ++ post) ->
  Forall (@no_match Car _ id) (pre ++ post) ->
  Car_unpack b = Ok c -> car_id c = id -> Car_pack (deleted_car c) = Ok nb ->
  mark_scan id (pre ++ b :: post) = Ok (pre ++ nb :: post, true).
Proof.
  intros HL HN Hc Hid Hp. unfold deleted_car in Hp.
  apply Forall_app in HL as [HLpre HLpost]. apply Forall_app in HN as [HNpre HNpost].
  induction pre as [|b' pre IH]; cbn [app mark_scan].
  - rewrite Hc. cbn [mbind result_bind]. rewrite bool_decide_true by exact Hid.
    rewrite Hp. cbn [mbind result_bind].
    rewrite mark_scan_miss by assumption. reflexivity.
  - apply Forall_cons in HLpre as [Hb HLpre]. apply Forall_cons in HNpre as [Hn HNpre].
    destruct (Car_unpack_total b' Hb) as [c' Hc'].
    rewrite Hc'. cbn [mbind result_bind].
    rewrite bool_decide_false by exact (Hn c' Hc'). cbn [mbind result_bind].
    rewrite IH by assumption. reflexivity.
Qed.

(** ** C6: the soft delete of a car *)

(** C6 (as amended): without faults, when the car file holds bytes and
    exactly one record [b] holds identity [id], decoding to [c],
    [mark_deleted id] reports success and replaces [b] by a block [nb]
    in place, every other record keeping its bytes and the record count
    staying the same; [nb] decodes to [c] with status ['Deleted'], year
    and price unchanged, and every other text field with its trailing
    spaces stripped. *)
Theorem mark_deleted_one (filename : string) (id : py_str) (w : world) (bs : bytes)
    pre (b : bytes) post (c : Car) :
  files w !! filename = Some bs -> Forall byte_ok bs ->
  records_of CAR_RECORD_SIZE bs = pre ++ b :: post ->
  Car_unpack b = Ok c -> car_id c = id ->
  Forall (@no_match Car _ id) (pre ++ post) ->
  fst (mark_deleted no_faults filename id w) = Ok true /\
  exists nb : bytes,
    Car_unpack nb = Ok (mkCar (rstrip_space (car_id c)) (rstrip_space (plate c))
                              (rstrip_space (brand c)) (rstrip_space (model c))
                              (year c) (price_per_day c) (str "Deleted")
                              (rstrip_space (rented c))) /\
    files (snd (mark_deleted no_faults filename id w)) =
      <[filename := concat (pre ++ nb :: post)]>
        (delete (String.append filename ".tmp") (files w)) /\
    records_of CAR_RECORD_SIZE (concat (pre ++ nb :: post)) = pre ++ nb :: post.
Proof.
  intros Hf HB Hr Hb Hid HN.
  pose proof (records_of_lengths CAR_RECORD_SIZE bs) as HL. rewrite Hr in HL.
  apply Forall_app in HL as [HLpre HLpost]. apply Forall_cons in HLpost as [_ HLpost].
  assert (HL : Forall (fun b => length b = CAR_RECORD_SIZE) (pre ++ post))
    by (apply Forall_app; split; assumption).
  pose proof (records_of_bytes CAR_RECORD_SIZE bs HB) as HBb. rewrite Hr in HBb.
  apply Forall_app in HBb as [_ HBb]. apply Forall_cons in HBb as [HBb _].
  pose proof (Car_fits_deleted c (Car_unpack_fits b c HBb Hb)) as Hfit.
  destruct (Car_unpack_pack _ Hfit) as (nb & Hp & Hnl & Hu).
  pose proof (mark_scan_hit id pre b post c nb HL HN Hb Hid Hp) as Hs.
  rewrite (mark_deleted_run no_faults filename id w bs _ _ Hf
             (eq_trans (f_equal (mark_scan id) Hr) Hs)).
  finish_overwrite.
  split; [reflexivity|]. exists nb. split; [rewrite Hu; reflexivity|].
  split; [exact Hw|].
  apply records_of_concat; [cbv; lia|].
  apply Forall_app; split; [assumption|]. constructor; assumption.
Qed.

Lemma mark_deleted_one_witness :
  fst (mark_deleted no_faults CARS_FILE (str "C009") (car_store split_plate_store_bytes)) = Ok true /\
  exists nb : bytes,
    Car_unpack nb = Ok (mkCar (str "C009") (str "AAAAAAAA") (str "Toyota") (str "Camry") 2023
                              (float_of_int 2500) (str "Deleted") (str "No")) /\
    files (snd (mark_deleted no_faults CARS_FILE (str "C009") (car_store split_plate_store_bytes))) =
      <[CARS_FILE := concat ([car_bytes car_C000] ++ nb :: [car_bytes car_C002])]>
        (delete (String.append CARS_FILE ".tmp") (files (car_store split_plate_store_bytes))) /\
    records_of CAR_RECORD_SIZE (concat ([car_bytes car_C000] ++ nb :: [car_bytes car_C002])) =
      [car_bytes car_C000] ++ nb :: [car_bytes car_C002].
Proof.
  destruct (mark_deleted_one CARS_FILE (str "C009") (car_store split_plate_store_bytes)
              split_plate_store_bytes [car_bytes car_C000] split_plate_bytes
              [car_bytes car_C002]
              (mkCar (str "C009") (str "AAAAAAAA ") (str "Toyota") (str "Camry") 2023
                     (float_of_int 2500) (str "Active") (str "No"))
              ltac:(reflexivity) ltac:(decide_tac)
              ltac:(vm_compute; reflexivity) ltac:(vm_compute; reflexivity)
              eq_refl ltac:(no_match_tac)) as [Hok [nb [Hu Hrest]]].
  split; [exact Hok|]. exists nb. split; [|exact Hrest].
  rewrite Hu. vm_compute. reflexivity.
Defined.

(** C6 (as stated): in a store holding the single car [car_split_plate],
    the plate decodes with a trailing space ('AAAAAAAA ', the cut Thai
    byte being ignored); after [mark_deleted] the stored car decodes with
    plate 'AAAAAAAA': a field other than the status has changed. *)
Lemma mark_deleted_strips_plate :
  let before := mkCar (str "C009") (str "AAAAAAAA ") (str "Toyota") (str "Camry") 2023
                      (float_of_int 2500) (str "Active") (str "No") in
  let after := mkCar (str "C009") (str "AAAAAAAA") (str "Toyota") (str "Camry") 2023
                     (float_of_int 2500) (str "Deleted") (str "No") in
  fst (repo_all no_faults CARS_FILE (car_store split_plate_bytes)) = Ok [before] /\
  fst ((mark_deleted no_faults CARS_FILE (str "C009");; repo_all no_faults CARS_FILE)
         (car_store split_plate_bytes)) = Ok [after] /\
  after <> deleted_car before.
Proof.
  intros before after. split; [|split].
  - vm_compute. reflexivity.
  - vm_compute. reflexivity.
  - intros Heq. apply (f_equal plate) in Heq. vm_compute in Heq. discriminate.
Qed.

(** * Further properties of the file layer, the repositories and the menu *)

Lemma div_step (l n : nat) : (0 < n)%nat -> (n <= l)%nat -> (l / n = S ((l - n) / n))%nat.
Proof.
  intros Hn Hl. replace l with ((l - n) + 1 * n)%nat at 1 by lia.
  rewrite Nat.div_add by lia. lia.
Qed.

Lemma iter_raw_split fuel n (bs : bytes) :
  (0 < n)%nat -> (length bs / n < fuel)%nat ->
  concat (iter_raw fuel n bs) = take (n * (length bs / n)) bs /\
  length (iter_raw fuel n bs) = (length bs / n)%nat.
Proof.
  revert bs. induction fuel as [|fuel IH]; intros bs Hn Hf; [lia|].
  cbn [iter_raw]. rewrite length_take.
  destruct (decide (length bs < n)%nat) as [Hlt|Hge].
  - replace ((min n (length bs) =? 0)%nat || (min n (length bs) <? n)%nat) with true
      by (symmetry; apply orb_true_iff; right; apply Nat.ltb_lt; lia).
    rewrite Nat.div_small by exact Hlt. rewrite Nat.mul_0_r. split; reflexivity.
  - replace ((min n (length bs) =? 0)%nat || (min n (length bs) <? n)%nat) with false
      by (symmetry; apply orb_false_iff; split; [apply Nat.eqb_neq | apply Nat.ltb_ge]; lia).
    rewrite (div_step (length bs) n) in * by lia.
    destruct (IH (drop n bs) Hn) as [Hc Hl]; [rewrite length_drop; lia|].
    rewrite length_drop in Hc, Hl. cbn [concat length]. rewrite Hc, Hl.
    split; [|reflexivity].
    rewrite take_take_drop. f_equal. lia.
Qed.

Lemma records_of_split n (bs : bytes) :
  (0 < n)%nat ->
  concat (records_of n bs) = take (n * (length bs / n)) bs /\
  length (records_of n bs) = (length bs / n)%nat.
Proof.
  intros Hn. apply iter_raw_split; [exact Hn|].
  pose proof (Nat.Div0.div_le_upper_bound (length bs) n (length bs)). nia.
Qed.



(** all() on an existing file never raises a decoding error: unless the
    read itself fails, it returns one entity per complete record. *)
Theorem all_one_per_record {E} `{EntityLaws E} (faults : nat -> bool) (filename : string)
    (w : world) (bs : bytes) :
  files w !! filename = Some bs -> faults (clock w) = false ->
  exists cs : list E, repo_all faults filename w = (Ok cs, mkWorld (files w) (S (clock w))) /\
                      length cs = (length bs / @recsize E _)%nat.
Proof.
  intros Hf Hk.
  destruct (mapM_unpack_total (records_of (@recsize E _) bs) (records_of_lengths _ _))
    as [cs [Hm H2]].
  exists cs. split.
  - unfold repo_all, read_all_raw, read_file.
    unfold mbind, M_bind, mret, M_ret, io_op, lift; cbn beta iota.
    rewrite Hk, Hf. cbn beta iota. rewrite Hm. reflexivity.
  - rewrite <- (Forall2_length _ _ _ H2).
    apply (records_of_split _ _ recsize_pos).
Qed.

Lemma all_one_per_record_witness :
  exists cs : list Car,
    repo_all no_faults CARS_FILE (car_store (sample_car_bytes ++ [1; 2]%Z))
    = (Ok cs, mkWorld (files (car_store (sample_car_bytes ++ [1; 2]%Z))) 1) /\
    length cs = (length (sample_car_bytes ++ [1; 2]%Z) / @recsize Car _)%nat.
Proof.
  apply (all_one_per_record no_faults CARS_FILE (car_store (sample_car_bytes ++ [1; 2]%Z)) _);
    reflexivity.
Defined.

Lemma records_of_aligned n (bs : bytes) :
  (0 < n)%nat -> (length bs mod n = 0)%nat -> concat (records_of n bs) = bs.
Proof.
  intros Hn Hm. rewrite (proj1 (records_of_split n bs Hn)).
  apply take_ge. pose proof (Nat.div_mod_eq (length bs) n). lia.
Qed.

Lemma mapM_app_result {A B} (f : A -> result B) (l1 l2 : list A) :
  mapM f (l1 ++ l2) = (x ← mapM f l1; y ← mapM f l2; mret (x ++ y)).
Proof.
  induction l1 as [|a l1 IH]; cbn [app mapM].
  - unfold mbind, result_bind, mret, result_ret. destruct (mapM f l2); reflexivity.
  - rewrite IH. unfold mbind, result_bind, mret, result_ret.
    destruct (f a); [|reflexivity]. destruct (mapM f l1); [|reflexivity].
    destruct (mapM f l2); reflexivity.
Qed.

(** [BinaryRepository.__init__] never changes an existing file nor any
    other file; without an I/O fault the file exists afterwards. *)
Theorem init_keeps_existing (faults : nat -> bool) (filename : string) (w : world)
    (r : result unit) (w' : world) :
  BinaryRepository_init faults filename w = (r, w') ->
  (forall q, q <> filename -> files w' !! q = files w !! q) /\
  (forall c, files w !! filename = Some c -> files w' !! filename = Some c) /\
  (faults (clock w) = false -> r = Ok tt /\ is_Some (files w' !! filename)).
Proof.
  unfold BinaryRepository_init, open_ab, io_op. intros Hrun.
  destruct (decide (is_Some (files w !! filename))) as [Hs|Hs].
  - injection Hrun as <- <-. split; [reflexivity|]. split; [auto|]. auto.
  - destruct (faults (clock w)) eqn:Hk.
    + injection Hrun as <- <-. cbn. split; [reflexivity|]. split; [auto|]. discriminate.
    + injection Hrun as <- <-. cbn. split; [|split].
      * intros q Hq. apply lookup_insert_ne. congruence.
      * intros c Hc. exfalso. apply Hs. eauto.
      * intros _. split; [reflexivity|]. rewrite lookup_insert_eq. eauto.
Qed.

Lemma init_keeps_existing_witness :
  BinaryRepository_init no_faults CARS_FILE empty_world
    = (Ok tt, mkWorld {[CARS_FILE := []]} 1) /\
  (forall q, q <> CARS_FILE -> files (mkWorld {[CARS_FILE := []]} 1) !! q = files empty_world !! q) /\
  (forall c, files empty_world !! CARS_FILE = Some c ->
             files (mkWorld {[CARS_FILE := []]} 1) !! CARS_FILE = Some c) /\
  (no_faults (clock empty_world) = false ->
   (Ok tt : result unit) = Ok tt /\ is_Some (files (mkWorld {[CARS_FILE := []]} 1) !! CARS_FILE)).
Proof.
  assert (H : BinaryRepository_init no_faults CARS_FILE empty_world
              = (Ok tt, mkWorld {[CARS_FILE := []]} 1)) by reflexivity.
  split; [exact H|]. exact (init_keeps_existing no_faults CARS_FILE empty_world _ _ H).
Defined.

Lemma repo_add_fresh_run {E} `{EntityLaws E} (filename : string) (e : E) (w : world)
    (bs b : bytes) (cs : list E) :
  files w !! filename = Some bs -> (length bs mod @recsize E _ = 0)%nat ->
  mapM e_unpack (records_of (@recsize E _) bs) = Ok cs ->
  find_first (e_ident e) cs = None -> e_pack e = Ok b ->
  exists c, e_unpack b = Ok c /\
    repo_add no_faults filename e w
      = (Ok true, mkWorld (<[filename := bs ++ b]> (files w)) (S (S (S (clock w))))) /\
    mapM e_unpack (records_of (@recsize E _) (bs ++ b)) = Ok (cs ++ [c]).
Proof.
  intros Hf Hal Hm Hn Hp.
  pose proof (pack_length e b Hp) as Hbl.
  destruct (unpack_total b Hbl) as [c Hc].
  exists c. split; [exact Hc|]. split.
  - unfold repo_add, repo_find, repo_all, read_all_raw, read_file, open_ab, write_file.
    unfold mbind, M_bind, mret, M_ret, io_op, lift; cbn beta iota.
    unfold no_faults. rewrite Hf. cbn beta iota. rewrite Hm. cbn beta iota.
    rewrite Hn. cbn -[insert lookup].
    assert (Hf' : (files w !! filename : option (list Z)) = Some bs) by exact Hf.
    rewrite Hf'. cbn -[insert lookup]. rewrite insert_id by exact Hf'.
    rewrite Hp. cbn -[insert lookup]. rewrite Hf'. reflexivity.
  - assert (Hcat : bs ++ b = concat (records_of (@recsize E _) bs ++ [b])).
    { rewrite concat_app, records_of_aligned by (exact recsize_pos || exact Hal).
      cbn. rewrite app_nil_r. reflexivity. }
    rewrite Hcat, records_of_concat.
    + rewrite mapM_app_result, Hm. cbn. rewrite Hc. reflexivity.
    + exact recsize_pos.
    + apply Forall_app. split; [apply records_of_lengths | constructor; [exact Hbl | constructor]].
Qed.

Lemma repo_all_mapM {E} `{Entity E} (filename : string) (w : world) (bs : bytes) (cs : list E) :
  files w !! filename = Some bs ->
  fst (repo_all no_faults filename w) = Ok cs ->
  mapM e_unpack (records_of (@recsize E _) bs) = Ok cs.
Proof.
  intros Hf Hall. unfold repo_all, read_all_raw, read_file in Hall.
  unfold mbind, M_bind, mret, M_ret, io_op, lift in Hall; cbn beta iota in Hall.
  unfold no_faults in Hall. rewrite Hf in Hall. exact Hall.
Qed.


(** add() of an entity whose identity is not in a file of complete
    records, with no I/O fault, succeeds and appends exactly its
    encoding; all() then returns the former entities followed by the
    decoded new one. *)
Theorem add_fresh_appends {E} `{EntityLaws E} (filename : string) (e : E) (w : world)
    (bs b : bytes) (cs : list E) :
  files w !! filename = Some bs -> (length bs mod @recsize E _ = 0)%nat ->
  fst (repo_all no_faults filename w) = Ok cs ->
  find_first (e_ident e) cs = None -> e_pack e = Ok b ->
  exists w' c, repo_add no_faults filename e w = (Ok true, w') /\
    files w' = <[filename := bs ++ b]> (files w) /\
    e_unpack b = Ok c /\ fst (repo_all no_faults filename w') = Ok (cs ++ [c]).
Proof.
  intros Hf Hal Hall Hn Hp.
  destruct (repo_add_fresh_run filename e w bs b cs Hf Hal (repo_all_mapM _ _ _ _ Hf Hall) Hn Hp)
    as (c & Hc & Hrun & Hm).
  eexists; exists c. split; [exact Hrun|]. split; [reflexivity|]. split; [exact Hc|].
  unfold repo_all, read_all_raw, read_file.
  unfold mbind, M_bind, mret, M_ret, io_op, lift; cbn beta iota. unfold no_faults.
  cbn [files]. rewrite lookup_insert_eq. cbn beta iota. exact Hm.
Qed.

Lemma add_fresh_appends_witness :
  exists w' (c : Car),
    repo_add no_faults CARS_FILE sample_car
      (car_store (car_bytes car_C000 ++ car_bytes car_C002)) = (Ok true, w') /\
    files w' = <[CARS_FILE := (car_bytes car_C000 ++ car_bytes car_C002) ++ sample_car_bytes]>
                 (files (car_store (car_bytes car_C000 ++ car_bytes car_C002))) /\
    e_unpack sample_car_bytes = Ok c /\
    fst (repo_all no_faults CARS_FILE w') = Ok ([car_C000; car_C002] ++ [c]).
Proof.
  apply (@add_fresh_appends Car _ _ CARS_FILE sample_car
           (car_store (car_bytes car_C000 ++ car_bytes car_C002))
           (car_bytes car_C000 ++ car_bytes car_C002) sample_car_bytes [car_C000; car_C002]);
    [reflexivity | vm_compute; reflexivity | vm_compute; reflexivity
    | vm_compute; reflexivity | vm_compute; reflexivity].
Defined.



Lemma mark_scan_total id (raw : list bytes) :
  Forall (fun b => length b = CAR_RECORD_SIZE) raw -> Forall (Forall byte_ok) raw ->
  exists out changed, mark_scan id raw = Ok (out, changed).
Proof.
  induction raw as [|b raw IH]; intros HL HB; [eauto|].
  apply Forall_cons in HL as [Hb HL]. apply Forall_cons in HB as [Hbb HB].
  destruct (Car_unpack_total b Hb) as [c Hc].
  destruct (Car_unpack_pack (deleted_car c) (Car_fits_deleted c (Car_unpack_fits b c Hbb Hc)))
    as (nb & Hp & _). unfold deleted_car in Hp.
  destruct (IH HL HB) as (out & changed & Hs).
  cbn [mark_scan]. rewrite Hc. cbn [mbind result_bind].
  case_bool_decide; [rewrite Hp|]; cbn [mbind result_bind]; rewrite Hs; eauto.
Qed.

(** CarRepository.mark_deleted never raises while the file system does
    not fail, whatever bytes the car file holds: every record it decodes
    can be encoded again. *)
Theorem mark_deleted_never_raises (filename : string) (id : py_str) (w : world) (bs : bytes)
    (r : result bool) (w' : world) :
  files w !! filename = Some bs -> Forall byte_ok bs ->
  mark_deleted no_faults filename id w = (r, w') -> exists changed, r = Ok changed.
Proof.
  intros Hf HB Hrun.
  destruct (mark_scan_total id (records_of CAR_RECORD_SIZE bs) (records_of_lengths _ _)
              (records_of_bytes _ _ HB)) as (out & changed & Hs).
  rewrite (mark_deleted_run no_faults filename id w bs out changed Hf Hs) in Hrun.
  cbn [no_faults] in Hrun. exists changed. destruct changed.
  - unfold mbind, M_bind, mret, M_ret in Hrun.
    destruct (overwrite_all_raw no_faults filename out _) as [r0 w0] eqn:Ho.
    rewrite (overwrite_all_raw_no_faults no_faults filename out _ r0 w0 (fun _ => eq_refl) Ho)
      in Hrun.
    injection Hrun as <- _. reflexivity.
  - injection Hrun as <- _. reflexivity.
Qed.

Lemma mark_deleted_never_raises_witness :
  exists changed,
    fst (mark_deleted no_faults CARS_FILE (str "C001") (car_store (sample_car_bytes ++ [255; 0])))
    = Ok changed.
Proof.
  destruct (mark_deleted no_faults CARS_FILE (str "C001") (car_store (sample_car_bytes ++ [255; 0])))
    as [r w'] eqn:E.
  refine (mark_deleted_never_raises CARS_FILE (str "C001") (car_store (sample_car_bytes ++ [255; 0]))
           (sample_car_bytes ++ [255; 0]) r w' eq_refl _ E).
  decide_tac.
Defined.

Lemma delete_scan_total cid (raw : list bytes) :
  Forall (fun b => length b = CUST_RECORD_SIZE) raw ->
  exists out found, delete_scan cid raw = Ok (out, found).
Proof.
  induction raw as [|b raw IH]; intros HL; [eauto|].
  apply Forall_cons in HL as [Hb HL].
  destruct (Customer_unpack_total b Hb) as [c Hc].
  destruct (IH HL) as (out & found & Hs).
  cbn [delete_scan]. rewrite Hc. cbn [mbind result_bind]. rewrite Hs.
  cbn [mbind result_bind]. case_bool_decide; eauto.
Qed.

(** The menu's delete_customer never raises while the file system does
    not fail, whatever the customer file holds. *)
Theorem delete_customer_never_raises (filename : string) (cid : py_str) (w : world) (bs : bytes)
    (r : result bool) (w' : world) :
  files w !! filename = Some bs ->
  delete_customer no_faults filename cid w = (r, w') -> exists found, r = Ok found.
Proof.
  intros Hf Hrun.
  destruct (delete_scan_total cid (records_of CUST_RECORD_SIZE bs) (records_of_lengths _ _))
    as (out & found & Hs).
  rewrite (delete_customer_run no_faults filename cid w bs out found Hf Hs) in Hrun.
  cbn [no_faults] in Hrun. exists found. destruct found.
  - unfold mbind, M_bind, mret, M_ret in Hrun.
    destruct (overwrite_all_raw no_faults filename out _) as [r0 w0] eqn:Ho.
    rewrite (overwrite_all_raw_no_faults no_faults filename out _ r0 w0 (fun _ => eq_refl) Ho)
      in Hrun.
    injection Hrun as <- _. reflexivity.
  - injection Hrun as <- _. reflexivity.
Qed.

Lemma delete_customer_never_raises_witness :
  exists found,
    fst (delete_customer no_faults CUSTOMERS_FILE (str "CU01") (customer_store sample_customer_bytes))
    = Ok found.
Proof.
  destruct (delete_customer no_faults CUSTOMERS_FILE (str "CU01") (customer_store sample_customer_bytes))
    as [r w'] eqn:E.
  exact (delete_customer_never_raises CUSTOMERS_FILE (str "CU01") (customer_store sample_customer_bytes)
           sample_customer_bytes r w' eq_refl E).
Defined.

(** Inclusive day counts compose: if a rental from a to b covers x >= 1
    days and one from b to c covers y >= 1 days, a rental from a to c
    covers x + y - 1 days (day b is counted once). *)
Theorem date_diff_days_split (a b c : py_str) (x y : Z) :
  date_diff_days a b = Ok x -> date_diff_days b c = Ok y -> 1 <= x -> 1 <= y ->
  date_diff_days a c = Ok (x + y - 1).
Proof.
  unfold date_diff_days, mbind, result_bind, mret, result_ret.
  destruct (parse_date a) as [da|]; destruct (parse_date b) as [db|];
    destruct (parse_date c) as [dc|]; try discriminate.
  intros Hx Hy H1 H2. injection Hx as <-. injection Hy as <-. f_equal. lia.
Qed.

Lemma date_diff_days_split_witness :
  date_diff_days (str "2024-02-27") ((thai_digits (str "2024") ++ str "-03-02")) = Ok 5 /\
  date_diff_days ((thai_digits (str "2024") ++ str "-03-02")) (str "2024-03-1" ++ thai_digits (str "0")) = Ok 9 /\
  date_diff_days (str "2024-02-27") (str "2024-03-1" ++ thai_digits (str "0")) = Ok (5 + 9 - 1).
Proof.
  assert (H1 : date_diff_days (str "2024-02-27") ((thai_digits (str "2024") ++ str "-03-02")) = Ok 5)
    by (vm_compute; reflexivity).
  assert (H2 : date_diff_days ((thai_digits (str "2024") ++ str "-03-02"))
                              (str "2024-03-1" ++ thai_digits (str "0")) = Ok 9)
    by (vm_compute; reflexivity).
  split; [exact H1|]. split; [exact H2|].
  apply (date_diff_days_split _ _ _ 5 9 H1 H2); lia.
Defined.

(** A date accepted by parse_date counted against itself gives one day. *)
Theorem date_diff_days_same (a : py_str) (d : Z * Z * Z) :
  parse_date a = Ok d -> date_diff_days a a = Ok 1.
Proof.
  intros H. unfold date_diff_days. rewrite H. cbn. f_equal. lia.
Qed.

Lemma date_diff_days_same_witness :
  date_diff_days (thai_digits (str "2024") ++ str "-02-29")
                 (thai_digits (str "2024") ++ str "-02-29") = Ok 1.
Proof. apply (date_diff_days_same _ (2024, 2, 29)). vm_compute. reflexivity. Defined.

Lemma lstrip_ws_suffix (y : py_str) : exists pre, y = pre ++ lstrip_ws y.
Proof.
  induction y as [|c y IH]; [exists []; reflexivity|]. cbn [lstrip_ws].
  destruct (py_isspace c).
  - destruct IH as [pre Hp]. exists (c :: pre). cbn. f_equal. exact Hp.
  - exists []. reflexivity.
Qed.

Lemma lstrip_ws_head (y : py_str) c : head (lstrip_ws y) = Some c -> py_isspace c = false.
Proof.
  induction y as [|x y IH]; cbn [lstrip_ws]; [discriminate|].
  destruct (py_isspace x) eqn:Hx; [exact IH|]. cbn. intros H. injection H as <-. exact Hx.
Qed.

Lemma py_strip_ends (l : py_str) :
  (forall c, head (py_strip l) = Some c -> py_isspace c = false) /\
  (forall c, last (py_strip l) = Some c -> py_isspace c = false).
Proof.
  unfold py_strip. set (t := lstrip_ws l). set (u := lstrip_ws (reverse t)).
  split.
  - intros c Hc. destruct (lstrip_ws_suffix (reverse t)) as [pre Hpre].
    fold u in Hpre. apply (f_equal reverse) in Hpre.
    rewrite reverse_involutive, reverse_app in Hpre.
    apply (lstrip_ws_head l). fold t. rewrite Hpre.
    destruct (reverse u) as [|x r]; [discriminate|]. exact Hc.
  - intros c Hc. rewrite last_reverse in Hc. exact (lstrip_ws_head _ _ Hc).
Qed.

Lemma py_strip_forall (P : Z -> Prop) (l : py_str) : Forall P l -> Forall P (py_strip l).
Proof.
  intros HF. unfold py_strip. apply Forall_reverse.
  destruct (lstrip_ws_suffix l) as [p1 H1].
  assert (HF1 : Forall P (lstrip_ws l))
    by (rewrite H1 in HF; apply Forall_app in HF as [_ HF]; exact HF).
  destruct (lstrip_ws_suffix (reverse (lstrip_ws l))) as [p2 H2].
  apply Forall_reverse in HF1. rewrite H2 in HF1. apply Forall_app in HF1 as [_ HF1]. exact HF1.
Qed.

(** input_nonempty returns a non-empty value with no whitespace at
    either end, the stripped form of one of the input lines, the lines
    after it being left unread; under a non-zero byte limit its UTF-8
    encoding fits the limit. *)
Theorem input_nonempty_result (max_len : option nat) (lines : list py_str) (v : py_str)
    (rest : list py_str) :
  input_nonempty max_len lines = Read v rest ->
  v <> [] /\
  (forall c, head v = Some c -> py_isspace c = false) /\
  (forall c, last v = Some c -> py_isspace c = false) /\
  (forall n, max_len = Some n -> n <> 0%nat ->
             exists e, utf8_encode v = Ok e /\ (length e <= n)%nat) /\
  exists pre l, lines = pre ++ l :: rest /\ py_strip l = v.
Proof.
  induction lines as [|l lines IH]; cbn [input_nonempty]; [discriminate|].
  destruct (py_strip l) as [|c u] eqn:Hs.
  { intros H. destruct (IH H) as (Hne & Hh & Hl & Hn & pre & l' & -> & Hl').
    repeat (split; [assumption|]). exists (l :: pre), l'. split; [reflexivity | exact Hl']. }
  destruct (py_strip_ends l) as [Hh Hl]. rewrite Hs in Hh, Hl.
  assert (Hne : c :: u <> []) by discriminate.
  destruct max_len as [n|].
  - destruct (n =? 0)%nat eqn:Hn0.
    + intros H. injection H as <- <-. repeat (split; [assumption|]). split.
      * intros n' Hn'. injection Hn' as <-. apply Nat.eqb_eq in Hn0. contradiction.
      * exists [], l. split; [reflexivity | exact Hs].
    + destruct (utf8_encode (c :: u)) as [e|ex] eqn:He; [|discriminate].
      destruct (n <? length e)%nat eqn:Hlt.
      * intros H. destruct (IH H) as (Hne' & Hh' & Hl' & Hn & pre & l' & -> & Hl'').
        repeat (split; [assumption|]). exists (l :: pre), l'. split; [reflexivity | exact Hl''].
      * intros H. injection H as <- <-. repeat (split; [assumption|]). split.
        -- intros n' Hn' _. injection Hn' as <-. exists e. split; [exact He|].
           apply Nat.ltb_ge in Hlt. exact Hlt.
        -- exists [], l. split; [reflexivity | exact Hs].
  - intros H. injection H as <- <-. repeat (split; [assumption|]). split.
    + discriminate.
    + exists [], l. split; [reflexivity | exact Hs].
Qed.

Lemma input_nonempty_result_witness :
  let lines := [str "   "; str "C0001234567"; [0x3000] ++ str "C001 " ++ [0x2000]; str "x"] in
  input_nonempty (Some 10%nat) lines = Read (str "C001") [str "x"] /\
  str "C001" <> [] /\
  (forall c, head (str "C001") = Some c -> py_isspace c = false) /\
  (forall c, last (str "C001") = Some c -> py_isspace c = false) /\
  (forall n, Some 10%nat = Some n -> n <> 0%nat ->
             exists e, utf8_encode (str "C001") = Ok e /\ (length e <= n)%nat) /\
  exists pre l, lines = pre ++ l :: [str "x"] /\ py_strip l = str "C001".
Proof.
  intros lines.
  assert (H : input_nonempty (Some 10%nat) lines = Read (str "C001") [str "x"])
    by (vm_compute; reflexivity).
  split; [exact H|]. exact (input_nonempty_result (Some 10%nat) lines _ _ H).
Defined.

(** A value input_nonempty accepted under a byte limit n > 0 is stored
    by fixed_bytes in an n-byte field and read back by bytes_to_str
    unchanged: the menu's ids and texts are never cut. *)
Theorem input_nonempty_stored_exactly (n : nat) (lines : list py_str) (v : py_str)
    (rest : list py_str) :
  Forall (Forall valid_cp) lines -> (0 < n)%nat ->
  input_nonempty (Some n) lines = Read v rest ->
  exists fb, fixed_bytes v n = Ok fb /\ length fb = n /\ bytes_to_str fb = Ok v.
Proof.
  intros HF Hn H.
  destruct (input_nonempty_result _ _ _ _ H) as (Hne & _ & Hl & Hfit & pre & l & Hlines & Hs).
  destruct (Hfit n eq_refl ltac:(lia)) as (e & He & Hle).
  assert (Hv : Forall valid_cp v).
  { rewrite <- Hs. apply py_strip_forall. rewrite Hlines in HF.
    apply Forall_app in HF as [_ HF]. apply Forall_cons in HF as [HF _]. exact HF. }
  destruct (field_roundtrip v n (conj Hv (ex_intro _ e (conj He Hle))))
    as (fb & Hfb & Hlen & _ & Hb).
  exists fb. split; [exact Hfb|]. split; [exact Hlen|].
  rewrite Hb, rstrip_space_id; [reflexivity|].
  unfold no_trailing_space. intros Hlast. specialize (Hl _ Hlast). discriminate.
Qed.

Lemma input_nonempty_stored_exactly_witness :
  exists fb, fixed_bytes [0xE01; 0xE02; 0x41] 10 = Ok fb /\ length fb = 10%nat /\
             bytes_to_str fb = Ok [0xE01; 0xE02; 0x41].
Proof.
  apply (input_nonempty_stored_exactly 10 [[0x20; 0xE01; 0xE02; 0x41; 0x09]] _ []);
    [decide_tac | lia | vm_compute; reflexivity].
Defined.

(** The counts cars_summary and make_report print: currently rented plus
    available is the number of active cars, and active plus deleted cars
    never exceed the records, whatever str.lower does. *)
Theorem summary_counts (lower : py_str -> py_str) (allcars : list Car) :
  (length (rented_cars lower (active_cars lower allcars))
   + length (available_cars lower (active_cars lower allcars))
   = length (active_cars lower allcars))%nat /\
  (length (active_cars lower allcars) + length (deleted_cars lower allcars)
   <= length allcars)%nat.
Proof.
  unfold rented_cars, available_cars, active_cars, deleted_cars. split.
  - induction (filter _ allcars) as [|c l IH]; [reflexivity|].
    rewrite !filter_cons. case_decide; case_decide; cbn [length]; try contradiction; lia.
  - induction allcars as [|c l IH]; [reflexivity|].
    rewrite !filter_cons. case_decide as H1; case_decide as H2; cbn [length]; [|lia..].
    rewrite H1 in H2. vm_compute in H2. discriminate.
Qed.

Lemma brand_count_fold (l : list Car) : forall (m : gmap py_str nat) (k : py_str),
  foldl brand_step m l !! k =
    let n := length (filter (fun c => brand c = k) l) in
    if (n =? 0)%nat then m !! k else Some (default 0 (m !! k) + n)%nat.
Proof.
  induction l as [|c l IH]; intros m k; [reflexivity|].
  cbn [foldl]. rewrite IH. cbn zeta. rewrite filter_cons. unfold brand_step.
  case_decide as Hb.
  - subst k. rewrite lookup_insert_eq. cbn [length].
    destruct (length _ =? 0)%nat eqn:E; [apply Nat.eqb_eq in E; rewrite E|]; cbn; f_equal; lia.
  - rewrite lookup_insert_ne by exact Hb. reflexivity.
Qed.

Lemma map_total_insert (m : gmap py_str nat) k v :
  map_total (<[k := v]> m) = (v + map_total m - default 0 (m !! k))%nat /\
  (default 0 (m !! k) <= map_total m)%nat.
Proof.
  unfold map_total. rewrite <- insert_delete_eq.
  rewrite map_fold_insert_L by (intros; lia || apply lookup_delete_eq).
  destruct (m !! k) as [d|] eqn:Hk.
  - rewrite (map_fold_delete_L _ 0%nat k d m) by (intros; lia || exact Hk). cbn. lia.
  - rewrite delete_id by exact Hk. cbn. lia.
Qed.

(** The per-brand counts make_report writes: a brand is listed exactly
    when some active car has it, with the number of active cars of that
    brand, and the counts add up to the number of active cars. *)
Theorem brand_count_spec (active : list Car) (k : py_str) :
  brand_count active !! k =
    (let n := length (filter (fun c => brand c = k) active) in
     if (n =? 0)%nat then None else Some n) /\
  map_fold (fun _ v acc => (v + acc)%nat) 0%nat (brand_count active) = length active.
Proof.
  split.
  - unfold brand_count. fold brand_step. rewrite brand_count_fold. reflexivity.
  - unfold brand_count. fold brand_step. fold (map_total (foldl brand_step ∅ active)).
    assert (Hg : forall m, map_total (foldl brand_step m active) = (map_total m + length active)%nat).
    { induction active as [|c l IH]; intros m; cbn [foldl length]; [lia|].
      rewrite IH. unfold brand_step. destruct (map_total_insert m (brand c) (default 0 (m !! brand c) + 1)%nat) as [H1 H2].
      rewrite H1. lia. }
    rewrite Hg. unfold map_total at 1. rewrite map_fold_empty. lia.
Qed.

Lemma read_file_files faults p w r w' : read_file faults p w = (r, w') -> files w' = files w.
Proof.
  unfold read_file, io_op. destruct (faults (clock w)); [intros Hx; injection Hx as _ <-; reflexivity|].
  destruct (files w !! p); intros Hx; injection Hx as _ <-; reflexivity.
Qed.

Lemma repo_find_files {E} `{Entity E} faults filename id w r w' :
  repo_find faults filename id w = (r, w') -> files w' = files w.
Proof.
  unfold repo_find, repo_all, read_all_raw, mbind, M_bind, mret, M_ret, lift.
  destruct (read_file faults filename w) as [[bs|e] w1] eqn:Hr;
    apply read_file_files in Hr; [|intros Hx; injection Hx as _ <-; exact Hr].
  destruct (mapM e_unpack _); intros Hx; injection Hx as _ <-; exact Hr.
Qed.

Lemma repo_add_false {E} `{Entity E} faults filename (e : E) w w' :
  repo_add faults filename e w = (Ok false, w') -> files w' = files w.
Proof.
  unfold repo_add. unfold mbind at 1, M_bind at 1.
  destruct (repo_find faults filename (e_ident e) w) as [[found|ex] w1] eqn:Hr;
    apply repo_find_files in Hr; [|discriminate].
  destruct found as [x|].
  - intros Hx. injection Hx as <-. exact Hr.
  - unfold mbind, M_bind, mret, M_ret, open_ab, write_file, lift, io_op.
    destruct (faults (clock w1)); [discriminate|]. cbn beta iota.
    destruct (e_pack e); [|discriminate]. cbn beta iota.
    destruct (faults _); discriminate.
Qed.

Lemma repo_update_false {E} `{Entity E} faults filename id (new : E) w w' :
  repo_update faults filename id new w = (Ok false, w') -> files w' = files w.
Proof.
  unfold repo_update, read_all_raw, mbind, M_bind, mret, M_ret, lift.
  destruct (read_file faults filename w) as [[bs|ex] w1] eqn:Hr;
    apply read_file_files in Hr; cbn beta iota; [|discriminate].
  destruct (update_scan id new _) as [[out changed]|ex]; cbn beta iota; [|discriminate].
  destruct changed.
  - destruct (overwrite_all_raw faults filename out w1) as [[u|ex] w2]; discriminate.
  - intros Hx. injection Hx as <-. exact Hr.
Qed.

(** add_contract writes no file unless it creates the contract: every
    other message it ends with (contract exists, car missing, deleted or
    rented, customer missing, bad dates, not confirmed, add refused)
    leaves all files as they were. *)
Theorem add_contract_writes_only_on_create (faults : nat -> bool) (lower : py_str -> py_str)
    (contract_id car_id cust_id start end_ confirm : py_str) (w : world)
    (m : add_contract_msg) (w' : world) :
  add_contract faults lower contract_id car_id cust_id start end_ confirm w = (Ok m, w') ->
  m <> Created -> files w' = files w.
Proof.
  intros Hrun Hm. unfold add_contract in Hrun.
  unfold mbind at 1, M_bind at 1 in Hrun.
  destruct (repo_find faults CONTRACTS_FILE contract_id w) as [[found|ex] w1] eqn:E1;
    apply repo_find_files in E1; [|discriminate].
  destruct found as [x|].
  { unfold mret, M_ret in Hrun. injection Hrun as _ <-. exact E1. }
  unfold mbind at 1, M_bind at 1 in Hrun.
  destruct (repo_find faults CARS_FILE car_id w1) as [[car|ex] w2] eqn:E2;
    apply repo_find_files in E2; [|discriminate].
  destruct car as [car|].
  2: { unfold mret, M_ret in Hrun. injection Hrun as _ <-. congruence. }
  case_bool_decide.
  { unfold mret, M_ret in Hrun. injection Hrun as _ <-. congruence. }
  case_bool_decide.
  { unfold mret, M_ret in Hrun. injection Hrun as _ <-. congruence. }
  unfold mbind at 1, M_bind at 1 in Hrun.
  destruct (repo_find faults CUSTOMERS_FILE cust_id w2) as [[cust|ex] w3] eqn:E3;
    apply repo_find_files in E3; [|discriminate].
  destruct cust as [cust|].
  2: { unfold mret, M_ret in Hrun. injection Hrun as _ <-. congruence. }
  destruct (date_diff_days start end_) as [dcount|ex].
  2: { unfold mret, M_ret in Hrun. injection Hrun as _ <-. congruence. }
  case_bool_decide.
  2: { unfold mret, M_ret in Hrun. injection Hrun as _ <-. congruence. }
  unfold mbind at 1, M_bind at 1 in Hrun.
  destruct (repo_add faults CONTRACTS_FILE _ w3) as [[ok|ex] w4] eqn:E4; [|discriminate].
  destruct ok.
  - unfold mbind, M_bind in Hrun.
    destruct (repo_update faults CARS_FILE car_id _ w4) as [[u|ex] w5]; [|discriminate].
    unfold mret, M_ret in Hrun. injection Hrun as <- _. contradiction.
  - apply repo_add_false in E4. unfold mret, M_ret in Hrun. injection Hrun as _ <-. congruence.
Qed.

(** close_contract writes no file unless it closes the contract: in
    particular a contract whose status is already closed is never
    charged again. *)
Theorem close_contract_writes_only_on_close (faults : nat -> bool) (lower : py_str -> py_str)
    (cid actual_in : py_str) (w : world) (m : close_contract_msg) (w' : world) :
  close_contract faults lower cid actual_in w = (Ok m, w') ->
  m <> Closed -> files w' = files w.
Proof.
  intros Hrun Hm. unfold close_contract in Hrun.
  unfold mbind at 1, M_bind at 1 in Hrun.
  destruct (repo_find faults CONTRACTS_FILE cid w) as [[found|ex] w1] eqn:E1;
    apply repo_find_files in E1; [|discriminate].
  destruct found as [c|].
  2: { unfold mret, M_ret in Hrun. injection Hrun as _ <-. exact E1. }
  case_bool_decide.
  { unfold mret, M_ret in Hrun. injection Hrun as _ <-. exact E1. }
  cbn zeta in Hrun.
  destruct (date_diff_days _ _) as [days|ex].
  2: { unfold mret, M_ret in Hrun. injection Hrun as _ <-. exact E1. }
  unfold mbind at 1, M_bind at 1 in Hrun.
  destruct (repo_find faults CARS_FILE (contract_car_id c) w1) as [[car|ex] w2] eqn:E2;
    apply repo_find_files in E2; [|discriminate].
  destruct car as [car|].
  2: { unfold mret, M_ret in Hrun. injection Hrun as _ <-. congruence. }
  unfold mbind at 1, M_bind at 1 in Hrun.
  destruct (repo_update faults CONTRACTS_FILE cid _ w2) as [[ok|ex] w3] eqn:E3; [|discriminate].
  destruct ok.
  - unfold mbind, M_bind in Hrun.
    destruct (repo_update faults CARS_FILE (car_id car) _ w3) as [[u|ex] w4]; [|discriminate].
    unfold mret, M_ret in Hrun. injection Hrun as <- _. contradiction.
  - apply repo_update_false in E3. unfold mret, M_ret in Hrun. injection Hrun as _ <-.
    congruence.
Qed.

Lemma add_contract_writes_only_on_create_witness :
  exists w', add_contract no_faults ascii_lower (str "K002") (str "C001") (str "CU01")
               (str "2025-10-01") (str "2025-10-03") (str "y") rental_world = (Ok CarRented, w') /\
             files w' = files rental_world.
Proof.
  eexists. split; [vm_compute; reflexivity|].
  refine (add_contract_writes_only_on_create no_faults ascii_lower (str "K002") (str "C001")
            (str "CU01") (str "2025-10-01") (str "2025-10-03") (str "y") rental_world CarRented _ _ _);
    [vm_compute; reflexivity | discriminate].
Defined.

Lemma close_contract_writes_only_on_close_witness :
  exists w', close_contract no_faults ascii_lower (str "K001") [] rental_world = (Ok AlreadyClosed, w') /\
             files w' = files rental_world.
Proof.
  eexists. split; [vm_compute; reflexivity|].
  refine (close_contract_writes_only_on_close no_faults ascii_lower (str "K001") [] rental_world
            AlreadyClosed _ _ _); [vm_compute; reflexivity | discriminate].
Defined.

Lemma update_scan_all {E} `{EntityLaws E} (id : py_str) (new : E) nb (raw : list bytes) :
  Forall (fun b => length b = @recsize E _) raw -> e_pack new = Ok nb ->
  update_scan id new raw
    = Ok (map (fun b => if holds_id id b then nb else b) raw, existsb (holds_id id) raw).
Proof.
  intros HL Hp. induction raw as [|b raw IH]; [reflexivity|].
  apply Forall_cons in HL as [Hb HL]. destruct (unpack_total b Hb) as [c Hc].
  cbn [update_scan map existsb]. unfold holds_id at 1 3. rewrite Hc.
  cbn [mbind result_bind]. case_bool_decide; [rewrite Hp|]; cbn [mbind result_bind];
    rewrite IH by exact HL; reflexivity.
Qed.

Lemma delete_scan_all (cid : py_str) (raw : list bytes) :
  Forall (fun b => length b = CUST_RECORD_SIZE) raw ->
  delete_scan cid raw
    = Ok (filter (fun b => @holds_id Customer _ cid b = false) raw,
          existsb (@holds_id Customer _ cid) raw).
Proof.
  intros HL. induction raw as [|b raw IH]; [reflexivity|].
  apply Forall_cons in HL as [Hb HL]. destruct (Customer_unpack_total b Hb) as [c Hc].
  assert (Hh : @holds_id Customer _ cid b = bool_decide (cust_id c = cid))
    by (unfold holds_id; cbn [e_unpack Customer_entity e_ident]; rewrite Hc; reflexivity).
  cbn [delete_scan existsb]. rewrite filter_cons, Hh.
  rewrite Hc. cbn [mbind result_bind]. rewrite IH by exact HL. cbn [mbind result_bind].
  case_bool_decide; cbn; [rewrite decide_False by discriminate | rewrite decide_True by reflexivity];
    reflexivity.
Qed.

Lemma overwrite_lookup (filename : string) out w r w' :
  overwrite_all_raw no_faults filename out w = (r, w') ->
  r = Ok tt /\ files w' !! filename = Some (concat out).
Proof.
  intros Ho. destruct (overwrite_all_raw_spec no_faults filename out w r w' Ho)
    as [[-> Hf] | [Hr _]].
  - split; [reflexivity|]. rewrite Hf. apply lookup_insert_eq.
  - rewrite (overwrite_all_raw_no_faults no_faults filename out w r w' (fun _ => eq_refl) Ho) in Hr.
    discriminate.
Qed.

Lemma repo_update_lookup {E} `{EntityLaws E} (filename : string) (id : py_str)
    (new : E) (w : world) (bs nb : bytes) :
  files w !! filename = Some bs -> e_pack new = Ok nb ->
  exists w', repo_update no_faults filename id new w
               = (Ok (existsb (holds_id id) (records_of (@recsize E _) bs)), w') /\
    files w' !! filename =
      Some (if existsb (holds_id id) (records_of (@recsize E _) bs)
            then concat (map (fun b => if holds_id id b then nb else b)
                             (records_of (@recsize E _) bs))
            else bs).
Proof.
  intros Hf Hp.
  rewrite (repo_update_run no_faults filename id new w bs _ _ Hf
             (update_scan_all id new nb _ (records_of_lengths _ _) Hp)).
  cbn [no_faults]. destruct (existsb _ _).
  - unfold mbind, M_bind.
    destruct (overwrite_all_raw no_faults filename _ _) as [r w1] eqn:Ho.
    destruct (overwrite_lookup _ _ _ _ _ Ho) as [-> Hl].
    exists w1. split; [reflexivity | exact Hl].
  - eexists. split; [reflexivity | exact Hf].
Qed.

Lemma update_scan_pack_err {E} `{Entity E} (id : py_str) (new : E) ex raw out ch :
  e_pack new = Err ex -> update_scan id new raw = Ok (out, ch) -> ch = false.
Proof.
  intros Hp. revert out ch. induction raw as [|b raw IH]; intros out ch.
  - intros Hs. injection Hs as _ <-. reflexivity.
  - cbn [update_scan]. destruct (e_unpack b) as [c|e]; [|discriminate]. cbn [mbind result_bind].
    case_bool_decide; [rewrite Hp; discriminate|]. cbn [mbind result_bind].
    destruct (update_scan id new raw) as [[o c']|e]; [|discriminate].
    intros Hs. injection Hs as _ <-. exact (IH o c' eq_refl).
Qed.

Lemma repo_update_true {E} `{EntityLaws E} (filename : string) (id : py_str) (new : E)
    (w w' : world) :
  repo_update no_faults filename id new w = (Ok true, w') ->
  exists bs nb, files w !! filename = Some bs /\ e_pack new = Ok nb /\
    files w' !! filename =
      Some (concat (map (fun b => if holds_id id b then nb else b)
                        (records_of (@recsize E _) bs))).
Proof.
  intros Hrun.
  destruct (files w !! filename) as [bs|] eqn:Hf.
  2: { unfold repo_update, read_all_raw, read_file, io_op, mbind, M_bind, lift in Hrun.
       cbn [no_faults] in Hrun. rewrite Hf in Hrun. discriminate. }
  destruct (e_pack new) as [nb|ex] eqn:Hp.
  - destruct (repo_update_lookup filename id new w bs nb Hf Hp) as [w1 [Hr Hl]].
    rewrite Hrun in Hr. injection Hr as Hex <-. rewrite <- Hex in Hl.
    exists bs, nb. split; [reflexivity|]. split; [reflexivity | exact Hl].
  - exfalso.
    destruct (update_scan id new (records_of (@recsize E _) bs)) as [[out ch]|ex'] eqn:Hs.
    + pose proof (update_scan_pack_err id new ex _ out ch Hp Hs) as ->.
      rewrite (repo_update_run no_faults filename id new w bs _ _ Hf Hs) in Hrun.
      discriminate.
    + unfold repo_update, read_all_raw, read_file, io_op, mbind, M_bind, mret, M_ret, lift in Hrun.
      cbn [no_faults] in Hrun. rewrite Hf in Hrun. cbn beta iota in Hrun.
      rewrite Hs in Hrun. discriminate.
Qed.

(** update() does not stop at the first match: with no I/O fault it
    replaces every record holding the identity by the new entity's
    encoding, keeps the others in order, and reports whether any matched. *)
Theorem update_replaces_every_match {E} `{EntityLaws E} (filename : string) (id : py_str)
    (new : E) (w : world) (bs nb : bytes) :
  files w !! filename = Some bs -> e_pack new = Ok nb ->
  exists w', repo_update no_faults filename id new w
               = (Ok (existsb (holds_id id) (records_of (@recsize E _) bs)), w') /\
    files w' !! filename =
      Some (if existsb (holds_id id) (records_of (@recsize E _) bs)
            then concat (map (fun b => if holds_id id b then nb else b)
                             (records_of (@recsize E _) bs))
            else bs).
Proof. exact (repo_update_lookup filename id new w bs nb). Qed.

(** The menu's delete_customer removes every record holding the id, not
    only the first, and keeps the others in order. *)
Theorem delete_customer_removes_every_match (filename : string) (cid : py_str) (w : world)
    (bs : bytes) :
  files w !! filename = Some bs ->
  exists w', delete_customer no_faults filename cid w
               = (Ok (existsb (@holds_id Customer _ cid) (records_of CUST_RECORD_SIZE bs)), w') /\
    files w' !! filename =
      Some (if existsb (@holds_id Customer _ cid) (records_of CUST_RECORD_SIZE bs)
            then concat (filter (fun b => @holds_id Customer _ cid b = false)
                                (records_of CUST_RECORD_SIZE bs))
            else bs).
Proof.
  intros Hf.
  rewrite (delete_customer_run no_faults filename cid w bs _ _ Hf
             (delete_scan_all cid _ (records_of_lengths _ _))).
  cbn [no_faults]. destruct (existsb _ _).
  - unfold mbind, M_bind.
    destruct (overwrite_all_raw no_faults filename _ _) as [r w1] eqn:Ho.
    destruct (overwrite_lookup _ _ _ _ _ Ho) as [-> Hl].
    exists w1. split; [reflexivity | exact Hl].
  - eexists. split; [reflexivity | exact Hf].
Qed.

Lemma update_replaces_every_match_witness :
  let bs := sample_customer_bytes ++ sample_customer_bytes in
  let new := mkCustomer (str "CU01") (str "Wandee") (str "2345678901234") (str "0823456789") (str "w@d.com") in
  exists w', repo_update no_faults CUSTOMERS_FILE (str "CU01") new (customer_store bs)
               = (Ok (existsb (@holds_id Customer _ (str "CU01")) (records_of (@recsize Customer _) bs)), w') /\
    files w' !! CUSTOMERS_FILE =
      Some (if existsb (@holds_id Customer _ (str "CU01")) (records_of (@recsize Customer _) bs)
            then concat (map (fun b => if @holds_id Customer _ (str "CU01") b then
                                         match Customer_pack new with Ok nb => nb | Err _ => [] end
                                       else b) (records_of (@recsize Customer _) bs))
            else bs).
Proof.
  intros bs new.
  apply (@update_replaces_every_match Customer Customer_entity Customer_laws CUSTOMERS_FILE
           (str "CU01") new (customer_store bs) bs
           (match Customer_pack new with Ok nb => nb | Err _ => [] end));
    [reflexivity | vm_compute; reflexivity].
Defined.

Lemma delete_customer_removes_every_match_witness :
  let bs := sample_customer_bytes ++ sample_customer_bytes in
  exists w', delete_customer no_faults CUSTOMERS_FILE (str "CU01") (customer_store bs)
               = (Ok (existsb (@holds_id Customer _ (str "CU01")) (records_of CUST_RECORD_SIZE bs)), w') /\
    files w' !! CUSTOMERS_FILE =
      Some (if existsb (@holds_id Customer _ (str "CU01")) (records_of CUST_RECORD_SIZE bs)
            then concat (filter (fun b => @holds_id Customer _ (str "CU01") b = false)
                                (records_of CUST_RECORD_SIZE bs))
            else bs).
Proof.
  intros bs. apply (delete_customer_removes_every_match CUSTOMERS_FILE (str "CU01") (customer_store bs) bs).
  reflexivity.
Defined.

Lemma repo_find_exists {E} `{Entity E} faults filename id w r w' :
  repo_find faults filename id w = (Ok r, w') -> exists bs, files w !! filename = Some bs.
Proof.
  unfold repo_find, repo_all, read_all_raw, read_file, io_op, mbind, M_bind, mret, M_ret, lift.
  destruct (faults (clock w)); [discriminate|]. destruct (files w !! filename); [eauto | discriminate].
Qed.

Lemma repo_find_same_files {E} `{Entity E} filename id w1 w2 :
  files w1 = files w2 ->
  fst (repo_find no_faults filename id w1) = fst (repo_find no_faults filename id w2).
Proof.
  intros Hw. unfold repo_find, repo_all, read_all_raw, read_file, io_op, mbind, M_bind, mret, M_ret, lift.
  cbn [no_faults]. rewrite Hw. destruct (files w2 !! filename); [|reflexivity].
  cbn. destruct (mapM e_unpack _); reflexivity.
Qed.

Lemma repo_add_true {E} `{Entity E} faults filename (e : E) w w' :
  repo_add faults filename e w = (Ok true, w') ->
  exists b, e_pack e = Ok b /\
            files w' = <[filename := default [] (files w !! filename) ++ b]> (files w).
Proof.
  unfold repo_add. unfold mbind at 1, M_bind at 1.
  destruct (repo_find faults filename (e_ident e) w) as [[found|ex] w1] eqn:Hr;
    apply repo_find_files in Hr; [|discriminate].
  destruct found as [x|]; [unfold mret, M_ret; discriminate|].
  unfold mbind, M_bind, mret, M_ret, open_ab, write_file, lift, io_op.
  destruct (faults (clock w1)); [discriminate|]. cbn beta iota.
  destruct (e_pack e) as [b|]; [|discriminate]. cbn beta iota.
  destruct (faults _); [discriminate|]. intros Hx. injection Hx as <-.
  exists b. split; [reflexivity|]. cbn. rewrite Hr, lookup_insert_eq, insert_insert_eq. cbn.
  destruct (files w !! filename) eqn:Hf.
  - cbn. reflexivity.
  - reflexivity.
Qed.

Lemma repo_update_other {E} `{Entity E} faults filename id (new : E) w u w' q :
  repo_update faults filename id new w = (Ok u, w') ->
  q <> filename -> q <> String.append filename ".tmp" -> files w' !! q = files w !! q.
Proof.
  intros Hrun Hq Ht. unfold repo_update, read_all_raw, mbind, M_bind, mret, M_ret, lift in Hrun.
  destruct (read_file faults filename w) as [[bs|ex] w1] eqn:Hr;
    apply read_file_files in Hr; cbn beta iota in Hrun; [|discriminate].
  destruct (update_scan id new _) as [[out changed]|ex]; cbn beta iota in Hrun; [|discriminate].
  destruct changed.
  - destruct (overwrite_all_raw faults filename out w1) as [[t|ex] w2] eqn:Ho; [|discriminate].
    injection Hrun as _ <-.
    destruct (overwrite_all_raw_spec faults filename out w1 _ _ Ho) as [[_ Hf] | [Hf _]];
      [|discriminate].
    rewrite Hf, lookup_insert_ne, lookup_delete_ne by congruence. rewrite Hr. reflexivity.
  - injection Hrun as _ <-. rewrite Hr. reflexivity.
Qed.

(** When add_contract reports the contract created (no I/O fault), the
    contracts file has grown by exactly the record of the new contract,
    status 'active', whose total cost is the inclusive day count times
    the daily rate of the car as it was read. *)
Theorem add_contract_created_record (lower : py_str -> py_str)
    (contract_id car_id cust_id start end_ confirm : py_str) (w w' : world) :
  add_contract no_faults lower contract_id car_id cust_id start end_ confirm w = (Ok Created, w') ->
  exists car dcount bs b,
    fst (repo_find no_faults CARS_FILE car_id w) = Ok (Some car) /\
    date_diff_days start end_ = Ok dcount /\
    files w !! CONTRACTS_FILE = Some bs /\
    Contract_pack (mkContract contract_id car_id cust_id start end_
                     (est_cost dcount (price_per_day car)) (str "active")) = Ok b /\
    files w' !! CONTRACTS_FILE = Some (bs ++ b).
Proof.
  intros Hrun. unfold add_contract in Hrun.
  unfold mbind at 1, M_bind at 1 in Hrun.
  destruct (repo_find no_faults CONTRACTS_FILE contract_id w) as [[found|ex] w1] eqn:E1;
    [|discriminate].
  destruct (repo_find_exists _ _ _ _ _ _ E1) as [bs Hbs].
  apply repo_find_files in E1.
  destruct found as [x|]; [unfold mret, M_ret in Hrun; discriminate|].
  unfold mbind at 1, M_bind at 1 in Hrun.
  destruct (repo_find no_faults CARS_FILE car_id w1) as [[car|ex] w2] eqn:E2; [|discriminate].
  assert (Hcar : fst (repo_find no_faults CARS_FILE car_id w) = Ok car)
    by (rewrite <- (repo_find_same_files CARS_FILE car_id w1 w E1), E2; reflexivity).
  apply repo_find_files in E2.
  destruct car as [car|]; [|unfold mret, M_ret in Hrun; discriminate].
  case_bool_decide; [unfold mret, M_ret in Hrun; discriminate|].
  case_bool_decide; [unfold mret, M_ret in Hrun; discriminate|].
  unfold mbind at 1, M_bind at 1 in Hrun.
  destruct (repo_find no_faults CUSTOMERS_FILE cust_id w2) as [[cust|ex] w3] eqn:E3;
    [|discriminate].
  apply repo_find_files in E3.
  destruct cust as [cust|]; [|unfold mret, M_ret in Hrun; discriminate].
  destruct (date_diff_days start end_) as [dcount|ex] eqn:Hd;
    [|unfold mret, M_ret in Hrun; discriminate].
  case_bool_decide; [|unfold mret, M_ret in Hrun; discriminate].
  unfold mbind at 1, M_bind at 1 in Hrun.
  destruct (repo_add no_faults CONTRACTS_FILE _ w3) as [[ok|ex] w4] eqn:E4; [|discriminate].
  destruct ok; [|unfold mret, M_ret in Hrun; discriminate].
  destruct (repo_add_true _ _ _ _ _ E4) as [b [Hp Hw4]].
  unfold mbind, M_bind in Hrun.
  destruct (repo_update no_faults CARS_FILE car_id _ w4) as [[u|ex] w5] eqn:E5; [|discriminate].
  unfold mret, M_ret in Hrun. injection Hrun as <-.
  exists car, dcount, bs, b. split; [exact Hcar|]. split; [reflexivity|]. split; [exact Hbs|].
  split; [exact Hp|].
  rewrite (repo_update_other _ _ _ _ _ _ _ _ E5) by (vm_compute; discriminate).
  rewrite Hw4, lookup_insert_eq, E3, E2, E1.
  assert (Hbs' : (files w !! CONTRACTS_FILE : option (list Z)) = Some bs) by exact Hbs.
  rewrite Hbs'. reflexivity.
Qed.

Lemma add_contract_created_record_witness :
  exists w', add_contract no_faults ascii_lower (str "K002") (str "C001") (str "CU01")
               (str "2025-10-01") (str "2025-10-03") (str " Y ") open_world = (Ok Created, w') /\
  exists car dcount bs b,
    fst (repo_find no_faults CARS_FILE (str "C001") open_world) = Ok (Some car) /\
    date_diff_days (str "2025-10-01") (str "2025-10-03") = Ok dcount /\
    files open_world !! CONTRACTS_FILE = Some bs /\
    Contract_pack (mkContract (str "K002") (str "C001") (str "CU01") (str "2025-10-01")
                     (str "2025-10-03") (est_cost dcount (price_per_day car)) (str "active")) = Ok b /\
    files w' !! CONTRACTS_FILE = Some (bs ++ b).
Proof.
  eexists. split; [vm_compute; reflexivity|].
  refine (add_contract_created_record ascii_lower (str "K002") (str "C001") (str "CU01")
            (str "2025-10-01") (str "2025-10-03") (str " Y ") open_world _ _);
    vm_compute; reflexivity.
Defined.

(** When close_contract closes a contract (no I/O fault), every record
    of the contract in the contracts file is replaced by the record of
    the contract as it was read with the return date (the stripped
    answer, or the recorded end date when the answer is blank), status
    'closed' and total cost the inclusive day count from its start date
    times the daily rate of its car; no other record changes. *)
Theorem close_contract_closed_record (lower : py_str -> py_str) (cid actual_in : py_str)
    (w w' : world) :
  close_contract no_faults lower cid actual_in w = (Ok Closed, w') ->
  exists c car days bs nb,
    fst (repo_find no_faults CONTRACTS_FILE cid w) = Ok (Some c) /\
    fst (repo_find no_faults CARS_FILE (contract_car_id c) w) = Ok (Some car) /\
    date_diff_days (start_date c)
      (match py_strip actual_in with [] => end_date c | v => v end) = Ok days /\
    files w !! CONTRACTS_FILE = Some bs /\
    Contract_pack (closed_contract c (float_mul (float_of_int days) (price_per_day car))
                     (match py_strip actual_in with [] => end_date c | v => v end)) = Ok nb /\
    files w' !! CONTRACTS_FILE =
      Some (concat (map (fun b => if @holds_id Contract _ cid b then nb else b)
                        (records_of CONTRACT_RECORD_SIZE bs))).
Proof.
  intros Hrun. unfold close_contract in Hrun.
  unfold mbind at 1, M_bind at 1 in Hrun.
  destruct (repo_find no_faults CONTRACTS_FILE cid w) as [[found|ex] w1] eqn:E1;
    [|discriminate].
  destruct (repo_find_exists _ _ _ _ _ _ E1) as [bs Hbs].
  apply repo_find_files in E1.
  destruct found as [c|]; [|unfold mret, M_ret in Hrun; discriminate].
  case_bool_decide; [unfold mret, M_ret in Hrun; discriminate|].
  cbn zeta in Hrun.
  destruct (date_diff_days (start_date c)
              (match py_strip actual_in with [] => end_date c | v => v end))
    as [days|ex] eqn:Hd; [|unfold mret, M_ret in Hrun; discriminate].
  unfold mbind at 1, M_bind at 1 in Hrun.
  destruct (repo_find no_faults CARS_FILE (contract_car_id c) w1) as [[car|ex] w2] eqn:E2;
    [|discriminate].
  assert (Hcar : fst (repo_find no_faults CARS_FILE (contract_car_id c) w) = Ok car)
    by (rewrite <- (repo_find_same_files CARS_FILE (contract_car_id c) w1 w E1), E2;
        reflexivity).
  apply repo_find_files in E2.
  destruct car as [car|]; [|unfold mret, M_ret in Hrun; discriminate].
  unfold mbind at 1, M_bind at 1 in Hrun.
  destruct (repo_update no_faults CONTRACTS_FILE cid _ w2) as [[ok|ex] w3] eqn:E3;
    [|discriminate].
  destruct ok; [|unfold mret, M_ret in Hrun; discriminate].
  destruct (repo_update_true _ _ _ _ _ E3) as (bs' & nb & Hbs' & Hp & Hl).
  assert (Hbs2 : (files w !! CONTRACTS_FILE : option (list Z)) = Some bs) by exact Hbs.
  rewrite E2, E1 in Hbs'. pose proof Hbs as Hbs3. rewrite Hbs' in Hbs3. injection Hbs3 as ->.
  unfold mbind, M_bind in Hrun.
  destruct (repo_update no_faults CARS_FILE (car_id car) _ w3) as [[u|ex] w4] eqn:E4;
    [|discriminate].
  unfold mret, M_ret in Hrun. injection Hrun as <-.
  exists c, car, days, bs, nb.
  split; [reflexivity|]. split; [exact Hcar|]. split; [exact Hd|]. split; [exact Hbs|].
  split; [exact Hp|].
  rewrite (repo_update_other _ _ _ _ _ _ _ _ E4) by (vm_compute; discriminate).
  exact Hl.
Qed.

Lemma close_contract_closed_record_witness :
  exists w', close_contract no_faults ascii_lower (str "K001")
               (str " 2025-09-2" ++ thai_digits (str "5") ++ str " ") active_rental_world
             = (Ok Closed, w') /\
  exists c car days bs nb,
    fst (repo_find no_faults CONTRACTS_FILE (str "K001") active_rental_world) = Ok (Some c) /\
    fst (repo_find no_faults CARS_FILE (contract_car_id c) active_rental_world) = Ok (Some car) /\
    date_diff_days (start_date c)
      (match py_strip (str " 2025-09-2" ++ thai_digits (str "5") ++ str " ") with
       | [] => end_date c | v => v end) = Ok days /\
    files active_rental_world !! CONTRACTS_FILE = Some bs /\
    Contract_pack (closed_contract c (float_mul (float_of_int days) (price_per_day car))
                     (match py_strip (str " 2025-09-2" ++ thai_digits (str "5") ++ str " ") with
                      | [] => end_date c | v => v end)) = Ok nb /\
    files w' !! CONTRACTS_FILE =
      Some (concat (map (fun b => if @holds_id Contract _ (str "K001") b then nb else b)
                        (records_of CONTRACT_RECORD_SIZE bs))).
Proof.
  eexists. split; [vm_compute; reflexivity|].
  refine (close_contract_closed_record ascii_lower (str "K001")
            (str " 2025-09-2" ++ thai_digits (str "5") ++ str " ") active_rental_world _ _).
  vm_compute. reflexivity.
Defined.
